(** * ConfiguratorCore: a shallow embedding of
      [configurator/src/ConfiguratorCore.cpp]

    The C++ namespace [ConfiguratorCore] is orchestration code: every
    function threads the process state (global configuration, [silent]
    flag, file system, log, standard output) through calls to collaborators.
    The embedding therefore is a state monad over a record [World]; every
    observable call made by the source is appended to [trace], so that the
    order of the effects can be stated.

    Collaborators whose code lives outside the translated file
    ([DsaKey], [LocalSystem::Path], [ItalcConfiguration],
    [SystemConfigurationModifier], [Configuration::LocalStore], the Qt
    classes) are either fields of the interface [Externals] or definitions
    marked "Modelled from the spec". *)

From stdpp Require Import base option list strings gmap.

Local Open Scope string_scope.
Local Open Scope list_scope.

(** ** Data model *)

(** Modelled from the spec: [ItalcCore::UserRole] is declared in
    [ItalcCore.h]; the spec lists the roles Administrator, Teacher,
    Supporter and Other. *)
Inductive UserRole := RoleAdministrator | RoleTeacher | RoleSupporter | RoleOther.

(** [QFile::Permission] flags. *)
Inductive Permission :=
  | ReadOwner | WriteOwner | ExeOwner
  | ReadUser | WriteUser | ExeUser
  | ReadGroup | WriteGroup | ExeGroup
  | ReadOther | WriteOther | ExeOther.

#[global] Instance Permission_eq_dec : EqDecision Permission.
Proof. solve_decision. Defined.

(** A regular file: its bytes and its permission flags. *)
Record File := mkFile {
  f_data : list Byte.byte;
  f_perms : list Permission
}.

(** [QVariant], restricted to the types a configuration data map can hold.
    [VMap] is [QVariant::Map], [VString] is [QVariant::String]; the other
    constructors stand for every other [QVariant::Type]. A [QMap] is
    iterated in key order, so a data map is the list of its entries in
    iteration order. *)
#[local] Unset Elimination Schemes.
Inductive QVariant :=
  | VInvalid
  | VBool (b : bool)
  | VInt (z : Z)
  | VStringList (l : list string)
  | VString (s : string)
  | VMap (m : list (string * QVariant)).
#[local] Set Elimination Schemes.

Abbreviation DataMap := (list (string * QVariant)).

(** [ItalcConfiguration] is a [Configuration::Object]: a wrapper of its
    data map. *)
Record ItalcConfiguration := mkConfig { data : DataMap }.

(** Modelled from the spec: the in-memory representation of a DSA key
    ([DsaKey.h] is not part of the translated file). The spec gives it a
    kind, a bit strength, raw key bytes and a validity flag. *)
Inductive KeyKind := PrivateKey | PublicKey.

Record KeyMaterial := mkKey {
  key_kind : KeyKind;
  key_bits : N;
  key_bytes : list Byte.byte;
  key_valid : bool
}.

Definition isValid (k : KeyMaterial) : bool := key_valid k.

(** The explicitly invalid key of a kind. *)
Definition invalidKey (kind : KeyKind) : KeyMaterial :=
  mkKey kind 0 [] false.

(** ** Observable effects *)

Inductive LogLevel := LogLevelDefault | LogLevelInfo | LogLevelCritical.

Inductive BoxIcon := BoxInformation | BoxCritical.

Inductive Event :=
  | EvLog (level : LogLevel) (parts : list string)   (* LogStream(level) << ... *)
  | EvLogFailed (what : string)                      (* ilog_failed( what ) *)
  | EvQtCritical (parts : list string)               (* qCritical() << ... *)
  | EvQtWarning (msg : string)                       (* qWarning( msg ) *)
  | EvMessageBox (icon : BoxIcon) (title msg : string)
  | EvKeyGenerate (bits : N)
  | EvKeyLoad (path : string)
  | EvKeySave (kind : KeyKind) (path : string)
  | EvFileExists (path : string)
  | EvSetPermissions (path : string) (perms : list Permission)
  | EvRemove (path : string)
  | EvSetServiceAutostart (enabled : bool)
  | EvSetServiceArguments (args : string)
  | EvEnableFirewallException (enabled : bool)
  | EvSetACL (acl : string)
  | EvFlush (c : ItalcConfiguration).

(** An event that only inspects the file system. *)
Definition is_query (e : Event) : bool :=
  match e with
  | EvFileExists _ | EvKeyLoad _ => true
  | _ => false
  end.

(** What the operating system answers; none of it is decided by the
    translated code. *)
Record Env := mkEnv {
  (* a file without write permission cannot be deleted (Windows) *)
  env_readonly_blocks_remove : bool;
  (* paths whose deletion the system refuses *)
  env_remove_denied : gset string;
  (* paths that cannot be created or opened for writing *)
  env_write_denied : gset string;
  (* paths whose permissions cannot be changed *)
  env_chmod_denied : gset string;
  (* results of the SystemConfigurationModifier calls *)
  env_setServiceAutostart : bool → bool;
  env_setServiceArguments : string → bool;
  env_enableFirewallException : bool → bool
}.

Record World := mkWorld {
  files : gmap string File;
  (* key material the DSA generator will produce, one entry per call;
     no entry left: generation fails *)
  entropy : list (list Byte.byte);
  (* *ItalcCore::config *)
  config : ItalcConfiguration;
  (* content of the Configuration::LocalStore of scope System *)
  systemStore : option ItalcConfiguration;
  (* ConfiguratorCore::silent *)
  silent : bool;
  (* QCoreApplication::instance() is a QApplication *)
  guiApplication : bool;
  env : Env;
  stdout : string;
  trace : list Event
}.

Definition set_files (f : gmap string File) (w : World) : World :=
  mkWorld f (entropy w) (config w) (systemStore w) (silent w)
          (guiApplication w) (env w) (stdout w) (trace w).
Definition set_entropy (e : list (list Byte.byte)) (w : World) : World :=
  mkWorld (files w) e (config w) (systemStore w) (silent w)
          (guiApplication w) (env w) (stdout w) (trace w).
Definition set_config (c : ItalcConfiguration) (w : World) : World :=
  mkWorld (files w) (entropy w) c (systemStore w) (silent w)
          (guiApplication w) (env w) (stdout w) (trace w).
Definition set_systemStore (c : option ItalcConfiguration) (w : World) : World :=
  mkWorld (files w) (entropy w) (config w) c (silent w)
          (guiApplication w) (env w) (stdout w) (trace w).
Definition set_stdout (s : string) (w : World) : World :=
  mkWorld (files w) (entropy w) (config w) (systemStore w) (silent w)
          (guiApplication w) (env w) s (trace w).
Definition set_trace (t : list Event) (w : World) : World :=
  mkWorld (files w) (entropy w) (config w) (systemStore w) (silent w)
          (guiApplication w) (env w) (stdout w) t.

(** ** The state monad of the embedding *)

Definition M (A : Type) : Type := World → A * World.

#[global] Instance M_ret : MRet M := λ A a w, (a, w).
#[global] Instance M_bind : MBind M :=
  λ A B f m w, let '(a, w') := m w in f a w'.

Definition get {A} (proj : World → A) : M A := λ w, (proj w, w).
Definition modify (f : World → World) : M unit := λ w, (tt, f w).
Definition emit (e : Event) : M unit :=
  modify (λ w, set_trace (trace w ++ [e]) w).
Definition skip : M unit := mret tt.
Definition print (s : string) : M unit :=
  modify (λ w, set_stdout (stdout w +:+ s) w).

(** Result and final state of a run. *)
Definition result {A} (m : M A) (w : World) : A := fst (m w).
Definition final {A} (m : M A) (w : World) : World := snd (m w).

(** The events a run appended are those of its trace after [n] events. *)
Definition new_events {A} (m : M A) (w : World) : list Event :=
  drop (length (trace w)) (trace (final m w)).

(** The line feed written by [endl] and by the escape sequence of a C string. *)
Definition nl : string :=
  String (Ascii.Ascii false true false true false false false false) "".

(** A [QString] is represented by its UTF-8 encoding, so [toUtf8()] gives
    the string itself. U+0000 is the only character whose encoding holds
    a zero byte. *)
Definition toUtf8 (s : string) : string := s.

(** [QByteArray::constData()] read as a C string, as [operator<<] on a
    [const char *] and the [%s] of [printf] read it: the bytes before the
    first zero byte. *)
Fixpoint constData (s : string) : string :=
  match s with
  | "" => ""
  | String c rest =>
      if Ascii.eqb c Ascii.zero then "" else String c (constData rest)
  end.

Definition isEmpty (s : string) : bool :=
  match s with "" => true | _ => false end.

(** [for( it = map.begin(); it != map.end(); ++it ) body]. *)
Section for_each.
Context {A : Type} (body : A → M unit).

Fixpoint for_each (l : list A) : M unit :=
  match l with
  | [] => mret tt
  | x :: rest => body x;; for_each rest
  end.
End for_each.

(** ** Collaborators outside the translated file

    Everything [ConfiguratorCore.cpp] uses but does not define, and that
    is a pure function of its arguments. *)
Class Externals := {
  (* the macro of italcconfig.h *)
  ITALC_BUILD_WIN32 : bool;
  (* ItalcCore::applicationName() *)
  applicationName : string;
  (* MainWindow::tr and QString::arg *)
  tr : string → string;
  QString_arg : string → string → string;
  (* Modelled from the spec: LocalSystem::Path::privateKeyPath and
     publicKeyPath; the spec has path resolution a pure function *)
  privateKeyPath : UserRole → string → string;
  publicKeyPath : UserRole → string → string;
  (* the on-disk format of DsaKey: parser of a public key file (bit
     strength and raw key bytes), the two serializers, the derivation of
     the public key and the permissions of a saved public key file *)
  parsePublicKey : list Byte.byte → option (N * list Byte.byte);
  serializePublicKey : N → list Byte.byte → list Byte.byte;
  serializePrivateKey : N → list Byte.byte → list Byte.byte;
  derivePublicKey : list Byte.byte → list Byte.byte;
  publicKeyPermissions : list Permission;
  (* ItalcConfiguration: operator+= and the accessors used *)
  config_merge : ItalcConfiguration → ItalcConfiguration → ItalcConfiguration;
  autostartService : ItalcConfiguration → bool;
  serviceArguments : ItalcConfiguration → string;
  isFirewallExceptionEnabled : ItalcConfiguration → bool;
  removeValue : string → string → ItalcConfiguration → ItalcConfiguration;
  value : string → string → ItalcConfiguration → string
}.

Section ConfiguratorCore.
Context {ext : Externals}.

(** *** Qt file operations *)

Definition file_exists (p : string) (w : World) : bool :=
  bool_decide (is_Some (files w !! p)).

(** Whether the system would delete [p] as it stands. *)
Definition removable (p : string) (w : World) : bool :=
  match files w !! p with
  | None => false
  | Some f =>
      bool_decide (p ∉ env_remove_denied (env w))
      && (negb (env_readonly_blocks_remove (env w))
          || bool_decide (WriteOwner ∈ f_perms f))
  end.

Definition QFile_exists (p : string) : M bool :=
  emit (EvFileExists p);; get (file_exists p).

Definition QFile_setPermissions (p : string) (perms : list Permission) : M bool :=
  emit (EvSetPermissions p perms);;
  w ← get id;
  match files w !! p with
  | Some f =>
      if bool_decide (p ∈ env_chmod_denied (env w)) then mret false
      else modify (set_files (<[p := mkFile (f_data f) perms]> (files w)));;
           mret true
  | None => mret false
  end.

Definition QFile_remove (p : string) : M bool :=
  emit (EvRemove p);;
  w ← get id;
  if removable p w
  then modify (set_files (delete p (files w)));; mret true
  else mret false.

(** *** Modelled from the spec: DsaKey

    [DsaKey.h] and [DsaKey.cpp] are not part of the translated file. *)

(** Modelled from the spec: [generatePrivate(bits)] produces a fresh
    private key of the requested strength, or fails when the generation
    primitive fails. *)
Definition PrivateDSAKey_generate (bits : N) : M KeyMaterial :=
  emit (EvKeyGenerate bits);;
  e ← get entropy;
  match e with
  | [] => mret (invalidKey PrivateKey)
  | raw :: rest =>
      modify (set_entropy rest);; mret (mkKey PrivateKey bits raw true)
  end.

(** Modelled from the spec: [derivePublic] always succeeds given a valid
    private key. *)
Definition PublicDSAKey_of (pkey : KeyMaterial) : KeyMaterial :=
  mkKey PublicKey (key_bits pkey) (derivePublicKey (key_bytes pkey))
        (key_valid pkey).

Definition parsedKey (content : list Byte.byte) : KeyMaterial :=
  match parsePublicKey content with
  | Some (bits, raw) => mkKey PublicKey bits raw true
  | None => invalidKey PublicKey
  end.

(** Modelled from the spec: [loadPublic(path)] parses a file and marks
    the key invalid, rather than throwing, when the content is not a
    well-formed public key. *)
Definition PublicDSAKey_load (path : string) : M KeyMaterial :=
  emit (EvKeyLoad path);;
  fs ← get files;
  mret (match fs !! path with
        | Some f => parsedKey (f_data f)
        | None => invalidKey PublicKey
        end).

Definition serializeKey (k : KeyMaterial) : list Byte.byte :=
  match key_kind k with
  | PrivateKey => serializePrivateKey (key_bits k) (key_bytes k)
  | PublicKey => serializePublicKey (key_bits k) (key_bytes k)
  end.

(** Modelled from the spec: a private key file is readable and writable
    by its owner, readable by the group, and not accessible to others. *)
Definition keyFilePermissions (kind : KeyKind) : list Permission :=
  match kind with
  | PrivateKey => [ReadOwner; WriteOwner; ReadGroup]
  | PublicKey => publicKeyPermissions
  end.

Definition keyFile (k : KeyMaterial) : File :=
  mkFile (serializeKey k) (keyFilePermissions (key_kind k)).

(** Modelled from the spec: [save(path)] serializes the key bytes to the
    target path, or fails with nothing written. *)
Definition DsaKey_save (k : KeyMaterial) (path : string) : M bool :=
  emit (EvKeySave (key_kind k) path);;
  w ← get id;
  if bool_decide (path ∈ env_write_denied (env w)) then mret false
  else modify (set_files (<[path := keyFile k]> (files w)));; mret true.

(** Modelled from the spec: [currentPublicKey(role, scope)] of the
    read-side aggregator, the public key stored for a role, or nothing
    when no file is there. *)
Definition currentPublicKey (role : UserRole) (destDir : string)
    (w : World) : option KeyMaterial :=
  f ← files w !! publicKeyPath role destDir;
  Some (parsedKey (f_data f)).

(** *** System services and the configuration store *)

Definition setServiceAutostart (enabled : bool) : M bool :=
  emit (EvSetServiceAutostart enabled);;
  get (λ w, env_setServiceAutostart (env w) enabled).

Definition setServiceArguments (args : string) : M bool :=
  emit (EvSetServiceArguments args);;
  get (λ w, env_setServiceArguments (env w) args).

Definition enableFirewallException (enabled : bool) : M bool :=
  emit (EvEnableFirewallException enabled);;
  get (λ w, env_enableFirewallException (env w) enabled).

Definition LogonAclSettings_setACL (acl : string) : M unit :=
  emit (EvSetACL acl).

Definition LocalStore_flush (c : ItalcConfiguration) : M unit :=
  emit (EvFlush c);; modify (set_systemStore (Some c)).

(** ** The functions of [ConfiguratorCore.cpp] *)

Definition informationMessage (title msg : string) : M unit :=
  emit (EvLog LogLevelInfo
          [constData (toUtf8 title); ":"; constData (toUtf8 msg)]);;
  app ← get guiApplication;
  quiet ← get silent;
  if app && negb quiet
  then emit (EvMessageBox BoxInformation title msg)
  else skip.

Definition criticalMessage (title msg : string) : M unit :=
  emit (EvLog LogLevelCritical
          [constData (toUtf8 title); ":"; constData (toUtf8 msg)]);;
  app ← get guiApplication;
  quiet ← get silent;
  if app && negb quiet
  then emit (EvMessageBox BoxCritical title msg)
  else skip.

Definition configApplyError (msg : string) : M unit :=
  criticalMessage (QString_arg (tr "%1 Configurator") applicationName) msg.

Definition msgAutostart : string :=
  QString_arg (tr "Could not modify the autostart property for the %1 Service.")
              applicationName.
Definition msgArguments : string :=
  QString_arg (tr "Could not modify the service arguments for the %1 Service.")
              applicationName.
Definition msgFirewall : string :=
  QString_arg (tr "Could not change the firewall configuration for the %1 Service.")
              applicationName.

Definition applyConfiguration (c : ItalcConfiguration) : M bool :=
  (* merge configuration *)
  modify (λ w, set_config (config_merge (config w) c) w);;
  (* do necessary modifications of system configuration *)
  cfg ← get config;
  ok ← setServiceAutostart (autostartService cfg);
  (if negb ok then configApplyError msgAutostart else skip);;
  cfg ← get config;
  ok ← setServiceArguments (serviceArguments cfg);
  (if negb ok then configApplyError msgArguments else skip);;
  cfg ← get config;
  ok ← enableFirewallException (isFirewallExceptionEnabled cfg);
  (if negb ok then configApplyError msgFirewall else skip);;
  (if ITALC_BUILD_WIN32 then
     modify (λ w, set_config (removeValue "LogonACL" "Authentication" (config w)) w);;
     cfg ← get config;
     LogonAclSettings_setACL (value "EncodedLogonACL" "Authentication" cfg)
   else skip);;
  (* write global configuration *)
  cfg ← get config;
  LocalStore_flush cfg;;
  mret true.

Definition unknownValueWarning : string :=
  "unknown value in configuration data map".

(** One iteration of the loop of the static [listConfiguration], on the
    entry [key], [v] of the map listed under [parentKey]. *)
Fixpoint listConfiguration_entry (parentKey key : string) (v : QVariant)
    {struct v} : M unit :=
  let curParentKey :=
    if isEmpty parentKey then key else parentKey +:+ "/" +:+ key in
  match v with
  | VMap m =>
      for_each (λ '(k, v'), listConfiguration_entry curParentKey k v') m
  | VString s =>
      print (curParentKey +:+ "=" +:+ s +:+ nl)
  | _ =>
      emit (EvQtWarning unknownValueWarning)
  end.

(** [static void listConfiguration( map, parentKey )]. *)
Definition listConfiguration_map (map : DataMap) (parentKey : string) : M unit :=
  for_each (λ '(k, v), listConfiguration_entry parentKey k v) map.

(** [void listConfiguration( config )]. *)
Definition listConfiguration (c : ItalcConfiguration) : M unit :=
  listConfiguration_map (data c) "".

Definition keyPairSavedMessage (priv pub : string) : string :=
  "...done, saved key-pair in" +:+ nl +:+ nl +:+ priv +:+ nl +:+ nl
  +:+ "and" +:+ nl +:+ nl +:+ pub.

Definition ownershipAdvice : string :=
  nl +:+ nl +:+ nl
  +:+ "For now the file is only readable by "
  +:+ "root and members of group root (if you" +:+ nl
  +:+ "didn't ran this command as non-root)." +:+ nl
  +:+ "I suggest changing the ownership of the "
  +:+ "private key so that the file is" +:+ nl +:+ "readable "
  +:+ "by all members of a special group to which "
  +:+ "all users belong who are" +:+ nl +:+ "allowed to use "
  +:+ "iTALC." +:+ nl +:+ nl +:+ nl.

Definition createKeyPair (role : UserRole) (destDir : string) : M bool :=
  let priv := privateKeyPath role destDir in
  let pub := publicKeyPath role destDir in
  emit (EvLog LogLevelDefault
          ["ConfiguratorCore: creating new key pair in"; priv; "and"; pub]);;
  pkey ← PrivateDSAKey_generate 1024;
  if negb (isValid pkey) then
    emit (EvLogFailed "key generation");; mret false
  else
    saved ← DsaKey_save pkey priv;
    if negb saved then
      emit (EvLogFailed "saving private key");; mret false
    else
      saved ← DsaKey_save (PublicDSAKey_of pkey) pub;
      if negb saved then
        emit (EvLogFailed "saving public key");; mret false
      else
        print (keyPairSavedMessage (constData (toUtf8 priv))
                                   (constData (toUtf8 pub)));;
        print ownershipAdvice;;
        mret true.

Definition importPublicKey (role : UserRole) (pubKey destDir : string) : M bool :=
  (* look whether the public key file is valid *)
  dsaKey ← PublicDSAKey_load pubKey;
  if negb (isValid dsaKey) then
    emit (EvQtCritical ["ConfiguratorCore::importPublicKey(): file"; pubKey;
                        "is not a valid public key file"]);;
    mret false
  else
    let pub := publicKeyPath role destDir in
    destExists ← QFile_exists pub;
    if (destExists : bool) then
      QFile_setPermissions pub [WriteOwner];;
      removed ← QFile_remove pub;
      if negb removed then
        emit (EvQtCritical ["ConfiguratorCore::importPublicKey(): could not remove existing public key file";
                            pub]);;
        mret false
      else
        (* now try to copy it *)
        DsaKey_save dsaKey pub
    else
      DsaKey_save dsaKey pub.

End ConfiguratorCore.

(** ** A reference instance of the collaborators

    It runs the embedding on concrete inputs. Keys live under
    [<destDir>/private/<role>/key] and [<destDir>/public/<role>/key]; a
    public key file is the two bytes "DS" followed by the raw key bytes,
    always of 1024 bits. *)
Module Reference.

Definition roleName (role : UserRole) : string :=
  match role with
  | RoleAdministrator => "admin"
  | RoleTeacher => "teacher"
  | RoleSupporter => "supporter"
  | RoleOther => "other"
  end.

Definition baseDir (destDir : string) : string :=
  if isEmpty destDir then "/etc/italc/keys" else destDir.

Definition keyPath (kindDir : string) (role : UserRole) (destDir : string) : string :=
  baseDir destDir +:+ "/" +:+ kindDir +:+ "/" +:+ roleName role +:+ "/key".

Definition parse (content : list Byte.byte) : option (N * list Byte.byte) :=
  match content with
  | Byte.x44 :: Byte.x53 :: raw => Some (1024%N, raw)
  | _ => None
  end.

Definition findString (key : string) (m : DataMap) : string :=
  match list_find (λ kv, bool_decide (kv.1 = key)) m with
  | Some (_, (_, VString s)) => s
  | _ => ""
  end.

Definition findMap (key : string) (m : DataMap) : DataMap :=
  match list_find (λ kv, bool_decide (kv.1 = key)) m with
  | Some (_, (_, VMap sub)) => sub
  | _ => []
  end.

Definition lookupValue (key parentKey : string) (c : ItalcConfiguration) : string :=
  findString key (findMap parentKey (data c)).

Definition dropKey (key : string) (m : DataMap) : DataMap :=
  filter (λ kv, kv.1 ≠ key) m.

(* entries of the second map replace those of the first *)
Definition overlay (a b : ItalcConfiguration) : ItalcConfiguration :=
  mkConfig (foldr (λ kv acc, kv :: dropKey kv.1 acc) (data a) (data b)).

Definition dropValue (key parentKey : string) (c : ItalcConfiguration)
    : ItalcConfiguration :=
  mkConfig (map (λ kv, if bool_decide (kv.1 = parentKey)
                       then match kv.2 with
                            | VMap sub => (kv.1, VMap (dropKey key sub))
                            | _ => kv
                            end
                       else kv) (data c)).

#[export] Instance externals : Externals := {|
  ITALC_BUILD_WIN32 := false;
  applicationName := "iTALC";
  tr := id;
  QString_arg := λ s a, s +:+ " [" +:+ a +:+ "]";
  privateKeyPath := keyPath "private";
  publicKeyPath := keyPath "public";
  parsePublicKey := parse;
  serializePublicKey := λ _ raw, Byte.x44 :: Byte.x53 :: raw;
  serializePrivateKey := λ _ raw, Byte.x44 :: Byte.x50 :: raw;
  derivePublicKey := reverse;
  publicKeyPermissions := [ReadOwner; ReadUser; ReadGroup; ReadOther];
  config_merge := overlay;
  autostartService := λ c, bool_decide (lookupValue "Autostart" "Service" c = "1");
  serviceArguments := lookupValue "Arguments" "Service";
  isFirewallExceptionEnabled :=
    λ c, bool_decide (lookupValue "FirewallException" "Network" c = "1");
  removeValue := dropValue;
  value := lookupValue
|}.

Definition posix : Env := {|
  env_readonly_blocks_remove := false;
  env_remove_denied := ∅;
  env_write_denied := ∅;
  env_chmod_denied := ∅;
  env_setServiceAutostart := λ _, true;
  env_setServiceArguments := λ _, true;
  env_enableFirewallException := λ _, true
|}.

Definition emptyWorld : World := {|
  files := ∅;
  entropy := [];
  config := mkConfig [];
  systemStore := None;
  silent := false;
  guiApplication := false;
  env := posix;
  stdout := "";
  trace := []
|}.

End Reference.

(** ** Vocabulary of the statements *)

(** Nothing but the trace differs between [w] and [w']. *)
Definition only_trace_changed (w w' : World) : Prop :=
  w' = set_trace (trace w') w.

(** Critical entries of the log. *)
Definition is_critical_log (e : Event) : bool :=
  match e with EvLog LogLevelCritical _ => true | _ => false end.

Definition is_key_save (e : Event) : bool :=
  match e with EvKeySave _ _ => true | _ => false end.

Definition is_message_box (e : Event) : bool :=
  match e with EvMessageBox _ _ _ => true | _ => false end.

Section Vocabulary.
Context {ext : Externals}.

(** What one call of the message surface appends to the trace. *)
Definition message_events (level : LogLevel) (icon : BoxIcon)
    (title msg : string) (w : World) : list Event :=
  EvLog level [constData (toUtf8 title); ":"; constData (toUtf8 msg)]
  :: (if guiApplication w && negb (silent w)
      then [EvMessageBox icon title msg] else []).

Definition configuratorTitle : string :=
  QString_arg (tr "%1 Configurator") applicationName.

(** What a step of [applyConfiguration] reports: nothing when it
    succeeded, one critical message when it failed. *)
Definition failure_report (ok : bool) (msg : string) (w : World) : list Event :=
  if ok then []
  else message_events LogLevelCritical BoxCritical configuratorTitle msg w.

(** The configuration [applyConfiguration] leaves in [ItalcCore::config]. *)
Definition appliedConfiguration (c : ItalcConfiguration) (w : World)
    : ItalcConfiguration :=
  let merged := config_merge (config w) c in
  if ITALC_BUILD_WIN32
  then removeValue "LogonACL" "Authentication" merged
  else merged.

End Vocabulary.

(** A string holds the character U+0000. *)
Fixpoint has_nul (s : string) : bool :=
  match s with
  | "" => false
  | String c rest => Ascii.eqb c Ascii.zero || has_nul rest
  end.

(** The claim on the message surface read literally: in silent mode, or
    without a [QApplication], the log entry with the title and the
    message is all the two functions produce. *)
Definition logs_title_and_message_only : Prop :=
  ∀ (title msg : string) (w : World),
    silent w = true ∨ guiApplication w = false →
    new_events (informationMessage title msg) w
    = [EvLog LogLevelInfo [title; ":"; msg]]
    ∧ new_events (criticalMessage title msg) w
      = [EvLog LogLevelCritical [title; ":"; msg]].

(** The title made of [a], U+0000 and [b]. *)
Definition titleWithNul : string :=
  "a" +:+ String Ascii.zero "b".

(** *** Listing of a configuration *)

(** Induction on a [QVariant] whose maps are lists of entries. *)
Section QVariant_induction.
Variable P : QVariant → Prop.
Hypothesis P_invalid : P VInvalid.
Hypothesis P_bool : ∀ b, P (VBool b).
Hypothesis P_int : ∀ z, P (VInt z).
Hypothesis P_stringList : ∀ l, P (VStringList l).
Hypothesis P_string : ∀ s, P (VString s).
Hypothesis P_map : ∀ m, Forall (λ kv, P kv.2) m → P (VMap m).

Fixpoint QVariant_ind (v : QVariant) : P v :=
  match v with
  | VInvalid => P_invalid
  | VBool b => P_bool b
  | VInt z => P_int z
  | VStringList l => P_stringList l
  | VString s => P_string s
  | VMap m =>
      P_map m
        ((fix entries (l : DataMap) : Forall (λ kv, P kv.2) l :=
            match l with
            | [] => @List.Forall_nil _ _
            | kv :: rest =>
                @List.Forall_cons _ _ kv rest (QVariant_ind kv.2) (entries rest)
            end) m)
  end.
End QVariant_induction.

(** The string-valued leaves below a value reached by the keys [path],
    each with the sequence of keys from the root to it, in iteration
    order. *)
Fixpoint string_leaves_below (path : list string) (v : QVariant)
    : list (list string * string) :=
  match v with
  | VMap m => flat_map (λ '(k, v'), string_leaves_below (path ++ [k]) v') m
  | VString s => [(path, s)]
  | _ => []
  end.

Definition string_leaves (m : DataMap) : list (list string * string) :=
  flat_map (λ '(k, v), string_leaves_below [k] v) m.

(** The number of entries, at any depth, that are neither a map nor a
    string. *)
Fixpoint other_entries_below (v : QVariant) : nat :=
  match v with
  | VMap m => foldr (λ '(_, v') n, other_entries_below v' + n) 0 m
  | VString _ => 0
  | _ => 1
  end.

Definition other_entries (m : DataMap) : nat :=
  foldr (λ '(_, v) n, other_entries_below v + n) 0 m.

(** The keys joined by slashes. *)
Definition slash_joined (keys : list string) : string := String.concat "/" keys.

(** The keys after the empty ones at the front. *)
Fixpoint drop_leading_empty (keys : list string) : list string :=
  match keys with
  | k :: rest => if isEmpty k then drop_leading_empty rest else keys
  | [] => []
  end.

(** The text of the lines [path=value] of a list of leaves, the path of a
    leaf computed from its keys by [path_of]. *)
Definition listing (path_of : list string → string)
    (leaves : list (list string * string)) : string :=
  foldr (λ '(keys, s) text, (path_of keys +:+ "=" +:+ s +:+ nl) +:+ text) "" leaves.

(** The key the source passes down: [curParentKey]. *)
Definition childKey (parentKey key : string) : string :=
  if isEmpty parentKey then key else parentKey +:+ "/" +:+ key.

Definition key_of_path (keys : list string) : string := foldl childKey "" keys.

(** The state after listing: text appended to the standard output and
    warnings appended to the trace. *)
Definition listed (text : string) (warnings : nat) (w : World) : World :=
  set_trace (trace w ++ replicate warnings (EvQtWarning unknownValueWarning))
            (set_stdout (stdout w +:+ text) w).

(** The claim on [listConfiguration] read literally: one line per string
    leaf, with the slash-joined keys as its path. *)
Definition lists_slash_joined_paths : Prop :=
  ∀ (c : ItalcConfiguration) (w : World),
    stdout (final (listConfiguration c) w)
    = stdout w +:+ listing slash_joined (string_leaves (data c)).

Definition emptyKeyConfiguration : ItalcConfiguration :=
  mkConfig [("", VMap [("a", VString "v")])].

Definition sampleConfiguration : ItalcConfiguration :=
  mkConfig [("Level", VInt 3);
            ("Service", VMap [("Arguments", VString "-v"); ("Autostart", VString "1")])].

(** *** Keys *)

Section KeyVocabulary.
Context {ext : Externals}.

(** The key [PublicDSAKey( path )] holds in state [w]. *)
Definition loadedKey (path : string) (w : World) : KeyMaterial :=
  match files w !! path with
  | Some f => parsedKey (f_data f)
  | None => invalidKey PublicKey
  end.

(** The file at [path] is missing or is not a well-formed public key. *)
Definition not_a_public_key (path : string) (w : World) : Prop :=
  ∀ f, files w !! path = Some f → parsePublicKey (f_data f) = None.

(** The files once [QFile::setPermissions( perms )] was called on [p]. *)
Definition files_after_setPermissions (p : string) (perms : list Permission)
    (w : World) : gmap string File :=
  match files w !! p with
  | Some f =>
      if bool_decide (p ∈ env_chmod_denied (env w)) then files w
      else <[p := mkFile (f_data f) perms]> (files w)
  | None => files w
  end.

Definition invalidKeyMessage (pubKey : string) : Event :=
  EvQtCritical ["ConfiguratorCore::importPublicKey(): file"; pubKey;
                "is not a valid public key file"].

Definition removeFailedMessage (pub : string) : Event :=
  EvQtCritical ["ConfiguratorCore::importPublicKey(): could not remove existing public key file"; pub].

Definition creatingMessage (priv pub : string) : Event :=
  EvLog LogLevelDefault
    ["ConfiguratorCore: creating new key pair in"; priv; "and"; pub].

(** Saving then loading a public key gives the key back. *)
Definition public_key_round_trip : Prop :=
  ∀ content bits raw,
    parsePublicKey content = Some (bits, raw) →
    parsePublicKey (serializePublicKey bits raw) = Some (bits, raw).

End KeyVocabulary.

(** *** The claims on key replacement read literally *)

(** A failed [importPublicKey] leaves the previous key of the role in
    place. *)
Definition failed_import_keeps_previous_key : Prop :=
  ∀ (ext : Externals) (role : UserRole) (pubKey destDir : string)
    (w : World) (old : File),
    let pub := publicKeyPath role destDir in
    let run := importPublicKey role pubKey destDir in
    files w !! pub = Some old →
    result run w = false →
    ∃ kept, files (final run w) !! pub = Some kept ∧ f_data kept = f_data old.

(** [importPublicKey] checks that the existing destination can be removed:
    a destination that cannot be removed makes it fail with the file
    system as it was and without a key saved. *)
Definition removal_is_checked_first : Prop :=
  ∀ (ext : Externals) (role : UserRole) (pubKey destDir : string)
    (w : World) (old : File),
    let pub := publicKeyPath role destDir in
    let run := importPublicKey role pubKey destDir in
    isValid (loadedKey pubKey w) = true →
    files w !! pub = Some old →
    removable pub w = false →
    result run w = false
    ∧ files (final run w) = files w
    ∧ filter is_key_save (new_events run w) = [].

(** *** Sample states *)

Module Samples.
Import Reference.

Definition supporterKey : string := "/etc/italc/keys/public/supporter/key".
Definition newKeyPath : string := "/home/admin/supporter.pub".
Definition brokenKeyPath : string := "/home/admin/truncated.pub".

Definition worldReadable : list Permission :=
  [ReadOwner; WriteOwner; ReadUser; ReadGroup; ReadOther].

Definition oldKeyFile : File :=
  mkFile [Byte.x44; Byte.x53; Byte.x01; Byte.x02; Byte.x03] worldReadable.
Definition newKeyFile : File :=
  mkFile [Byte.x44; Byte.x53; Byte.x0a; Byte.x0b; Byte.x0c] worldReadable.
Definition brokenKeyFile : File := mkFile [Byte.x44] worldReadable.

Definition withEnv (e : Env) (w : World) : World :=
  mkWorld (files w) (entropy w) (config w) (systemStore w) (silent w)
          (guiApplication w) e (stdout w) (trace w).

(** A supporter key is installed; a new key and a truncated file wait to
    be imported. *)
Definition installed : World :=
  set_files {[ supporterKey := oldKeyFile; newKeyPath := newKeyFile;
               brokenKeyPath := brokenKeyFile ]} emptyWorld.

(** The installed key can be deleted but no file can be created in its
    place. *)
Definition noSpace : Env :=
  mkEnv false ∅ {[ supporterKey ]} ∅ (λ _, true) (λ _, true) (λ _, true).

(** The installed key cannot be deleted. *)
Definition lockedKey : Env :=
  mkEnv false {[ supporterKey ]} ∅ ∅ (λ _, true) (λ _, true) (λ _, true).

(** The generator has key material for one key. *)
Definition seeded : World :=
  set_entropy [[Byte.x11; Byte.x22; Byte.x33]] emptyWorld.

Definition installedNoSpace : World := withEnv noSpace installed.
Definition installedLocked : World := withEnv lockedKey installed.

(** An interactive application in silent mode. *)
Definition quiet : World :=
  mkWorld ∅ [] (mkConfig []) None true true posix "" [].
End Samples.

(** ** Vocabulary of the further properties *)

(** A call that changes or removes an existing file. *)
Definition is_removal_step (e : Event) : bool :=
  match e with
  | EvSetPermissions _ _ | EvRemove _ => true
  | _ => false
  end.

(** A call to the system services or to the configuration store. *)
Definition is_system_step (e : Event) : bool :=
  match e with
  | EvSetServiceAutostart _ | EvSetServiceArguments _
  | EvEnableFirewallException _ | EvSetACL _ | EvFlush _ => true
  | _ => false
  end.

(** The configuration, the system store, the mode flags and the
    environment are the same in [w] and [w']. *)
Definition same_process_state (w w' : World) : Prop :=
  config w' = config w
  ∧ systemStore w' = systemStore w
  ∧ silent w' = silent w
  ∧ guiApplication w' = guiApplication w
  ∧ env w' = env w.

Section FurtherVocabulary.
Context {ext : Externals}.


(** The public key of the pair generated from the key material [raw]. *)
Definition generatedPublicKey (raw : list Byte.byte) : KeyMaterial :=
  PublicDSAKey_of (mkKey PrivateKey 1024 raw true).

(** Whether the removal of [pub] goes through once [importPublicKey] has
    called [setPermissions( WriteOwner )] on it. *)
Definition removable_after_chmod (pub : string) (w : World) : bool :=
  removable pub (set_files (files_after_setPermissions pub [WriteOwner] w) w).

End FurtherVocabulary.

Module MoreSamples.
Import Reference Samples.

(** A system on which a file without write permission cannot be deleted. *)
Definition windows : Env :=
  mkEnv true ∅ ∅ ∅ (λ _, true) (λ _, true) (λ _, true).

(** The same, the permissions of the installed key being locked. *)
Definition windowsLocked : Env :=
  mkEnv true ∅ ∅ {[ supporterKey ]} (λ _, true) (λ _, true) (λ _, true).

Definition readOnlyKeyFile : File :=
  mkFile [Byte.x44; Byte.x53; Byte.x01; Byte.x02; Byte.x03]
         [ReadOwner; ReadUser; ReadGroup; ReadOther].

(** A read-only supporter key is installed. *)
Definition installedReadOnly : World :=
  withEnv windows
    (set_files {[ supporterKey := readOnlyKeyFile; newKeyPath := newKeyFile ]}
       emptyWorld).

Definition installedReadOnlyLocked : World := withEnv windowsLocked installedReadOnly.

(** No key is installed and none can be created. *)
Definition emptyNoSpace : World :=
  withEnv noSpace (set_files {[ newKeyPath := newKeyFile ]} emptyWorld).

(** An interactive application that is not silent, every system
    modification failing. *)
Definition failing : Env :=
  mkEnv false ∅ ∅ ∅ (λ _, false) (λ _, false) (λ _, false).

Definition interactive : World :=
  mkWorld ∅ [] (mkConfig []) None false true failing "" [].

(** The generator has key material for two keys. *)
Definition seededTwice : World :=
  set_entropy [[Byte.x11; Byte.x22; Byte.x33]; [Byte.x44; Byte.x55]] emptyWorld.


End MoreSamples.

(** * Properties *)

Lemma new_events_of_trace {A} (m : M A) (w : World) (evs : list Event) :
  trace (final m w) = trace w ++ evs → new_events m w = evs.
Proof.
  intros E. unfold new_events. rewrite E. apply drop_app_length.
Qed.

Lemma bind_run {A B} (m : M A) (f : A → M B) (w : World) :
  (m ≫= f) w = let '(a, w') := m w in f a w'.
Proof. reflexivity. Qed.

(** Unfolds one run of the monad on a state. *)
Ltac run_monad :=
  cbv beta iota zeta delta [mbind mret M_bind M_ret get modify emit print skip
                             result final id];
  cbn [fst snd trace files entropy config systemStore silent guiApplication
       env stdout set_trace set_files set_entropy set_config set_systemStore
       set_stdout].

(** The same, through the accessors of a key. *)
Ltac run_keys :=
  repeat progress
    (run_monad;
     cbn [isValid invalidKey key_valid key_kind PublicDSAKey_of negb]).

Section Messages.
Context {ext : Externals}.

Lemma informationMessage_run title msg w :
  informationMessage title msg w
  = (tt, set_trace (trace w ++ message_events LogLevelInfo BoxInformation title msg w) w).
Proof.
  unfold informationMessage, message_events. run_monad.
  destruct (guiApplication w), (silent w); simpl;
    rewrite <- ?app_assoc; reflexivity.
Qed.

Lemma criticalMessage_run title msg w :
  criticalMessage title msg w
  = (tt, set_trace (trace w ++ message_events LogLevelCritical BoxCritical title msg w) w).
Proof.
  unfold criticalMessage, message_events. run_monad.
  destruct (guiApplication w), (silent w); simpl;
    rewrite <- ?app_assoc; reflexivity.
Qed.

Lemma message_events_quiet level icon title msg w :
  silent w = true ∨ guiApplication w = false →
  message_events level icon title msg w
  = [EvLog level [constData (toUtf8 title); ":"; constData (toUtf8 msg)]].
Proof.
  unfold message_events. intros [-> | ->]; [|reflexivity].
  by rewrite andb_false_r.
Qed.

Lemma constData_without_nul (s : string) : has_nul s = false → constData s = s.
Proof.
  induction s as [|c s IH]; [reflexivity|]. cbn [has_nul constData].
  destruct (Ascii.eqb c Ascii.zero); [discriminate|].
  cbn [orb]. intros H. by rewrite (IH H).
Qed.

(** C7, as the source has it. In every mode [informationMessage] and
    [criticalMessage] first write to the log the title and the message,
    each as a C string, that is up to its first U+0000 (the whole of it
    when it has none), and change nothing but the trace; when silent mode
    is active or the application is not a [QApplication], the log entry is
    all they produce: no message box is shown. *)
Theorem messages_log_only_when_silent (title msg : string) (w : World) :
  let info := informationMessage title msg in
  let crit := criticalMessage title msg in
  let logged level := EvLog level [constData title; ":"; constData msg] in
  (∃ more, new_events info w = logged LogLevelInfo :: more)
  ∧ (∃ more, new_events crit w = logged LogLevelCritical :: more)
  ∧ only_trace_changed w (final info w)
  ∧ only_trace_changed w (final crit w)
  ∧ (silent w = true ∨ guiApplication w = false →
     new_events info w = [logged LogLevelInfo]
     ∧ new_events crit w = [logged LogLevelCritical]
     ∧ filter is_message_box (new_events info w ++ new_events crit w) = []
     ∧ (has_nul title = false → has_nul msg = false →
        new_events info w = [EvLog LogLevelInfo [title; ":"; msg]]
        ∧ new_events crit w = [EvLog LogLevelCritical [title; ":"; msg]])).
Proof.
  intros info crit logged.
  assert (Ei : new_events info w
               = message_events LogLevelInfo BoxInformation title msg w).
  { apply new_events_of_trace. unfold final, info.
    by rewrite informationMessage_run. }
  assert (Ec : new_events crit w
               = message_events LogLevelCritical BoxCritical title msg w).
  { apply new_events_of_trace. unfold final, crit.
    by rewrite criticalMessage_run. }
  rewrite Ei, Ec. split; [eexists; reflexivity|]. split; [eexists; reflexivity|].
  split.
  { unfold only_trace_changed, final, info. by rewrite informationMessage_run. }
  split.
  { unfold only_trace_changed, final, crit. by rewrite criticalMessage_run. }
  intros Hquiet. rewrite !message_events_quiet by done.
  split; [reflexivity|]. split; [reflexivity|]. split; [reflexivity|].
  intros Ht Hm. unfold toUtf8.
  by rewrite (constData_without_nul title Ht), (constData_without_nul msg Hm).
Qed.

End Messages.

Section ApplyConfiguration.
Context {ext : Externals}.

Lemma applyConfiguration_run (c : ItalcConfiguration) (w : World) :
  let merged := config_merge (config w) c in
  let stored := appliedConfiguration c w in
  applyConfiguration c w
  = (true,
     set_systemStore (Some stored)
       (set_config stored
         (set_trace
           (trace w
            ++ (EvSetServiceAutostart (autostartService merged)
                :: failure_report
                     (env_setServiceAutostart (env w) (autostartService merged))
                     msgAutostart w)
            ++ (EvSetServiceArguments (serviceArguments merged)
                :: failure_report
                     (env_setServiceArguments (env w) (serviceArguments merged))
                     msgArguments w)
            ++ (EvEnableFirewallException (isFirewallExceptionEnabled merged)
                :: failure_report
                     (env_enableFirewallException (env w)
                        (isFirewallExceptionEnabled merged))
                     msgFirewall w)
            ++ (if ITALC_BUILD_WIN32
                then [EvSetACL (value "EncodedLogonACL" "Authentication" stored)]
                else [])
            ++ [EvFlush stored]) w))).
Proof.
  intros merged stored.
  unfold stored, appliedConfiguration, applyConfiguration, setServiceAutostart,
    setServiceArguments, enableFirewallException, LogonAclSettings_setACL,
    LocalStore_flush, configApplyError, criticalMessage, failure_report,
    message_events, configuratorTitle.
  run_monad. fold merged.
  destruct (guiApplication w) eqn:G, (silent w) eqn:S, ITALC_BUILD_WIN32;
    (destruct (env_setServiceAutostart (env w) (autostartService merged));
     simpl; rewrite ?G, ?S; simpl;
     destruct (env_setServiceArguments (env w) (serviceArguments merged));
     simpl; rewrite ?G, ?S; simpl;
     destruct (env_enableFirewallException (env w)
                 (isFirewallExceptionEnabled merged));
     simpl; rewrite ?G, ?S; simpl;
     repeat (rewrite <- app_assoc; simpl); reflexivity).
Qed.

(** C6. [applyConfiguration] merges its argument into the global
    configuration, calls the three system modifications in order whatever
    their results, reports each failed one by exactly one critical message
    (and none for a successful one), flushes the resulting global
    configuration to the system store and returns [true]. *)
Theorem applyConfiguration_reports_and_continues
    (c : ItalcConfiguration) (w : World) :
  let merged := config_merge (config w) c in
  let stored := appliedConfiguration c w in
  let autostart_ok := env_setServiceAutostart (env w) (autostartService merged) in
  let arguments_ok := env_setServiceArguments (env w) (serviceArguments merged) in
  let firewall_ok :=
    env_enableFirewallException (env w) (isFirewallExceptionEnabled merged) in
  let run := applyConfiguration c in
  result run w = true
  ∧ config (final run w) = stored
  ∧ systemStore (final run w) = Some (config (final run w))
  ∧ new_events run w
    = (EvSetServiceAutostart (autostartService merged)
       :: failure_report autostart_ok msgAutostart w)
      ++ (EvSetServiceArguments (serviceArguments merged)
          :: failure_report arguments_ok msgArguments w)
      ++ (EvEnableFirewallException (isFirewallExceptionEnabled merged)
          :: failure_report firewall_ok msgFirewall w)
      ++ (if ITALC_BUILD_WIN32
          then [EvSetACL (value "EncodedLogonACL" "Authentication" stored)]
          else [])
      ++ [EvFlush stored]
  ∧ length (filter is_critical_log (new_events run w))
    = length (filter negb [autostart_ok; arguments_ok; firewall_ok]).
Proof.
  intros merged stored autostart_ok arguments_ok firewall_ok run.
  pose proof (applyConfiguration_run c w) as E. cbv zeta in E.
  fold merged stored autostart_ok arguments_ok firewall_ok in E.
  assert (Ev : new_events run w
    = (EvSetServiceAutostart (autostartService merged)
       :: failure_report autostart_ok msgAutostart w)
      ++ (EvSetServiceArguments (serviceArguments merged)
          :: failure_report arguments_ok msgArguments w)
      ++ (EvEnableFirewallException (isFirewallExceptionEnabled merged)
          :: failure_report firewall_ok msgFirewall w)
      ++ (if ITALC_BUILD_WIN32
          then [EvSetACL (value "EncodedLogonACL" "Authentication" stored)]
          else [])
      ++ [EvFlush stored]).
  { apply new_events_of_trace. unfold final, run. by rewrite E. }
  unfold result, final, run. rewrite E. repeat split.
  - exact Ev.
  - fold run. rewrite Ev. clear E Ev.
    unfold failure_report, message_events.
    clearbody autostart_ok arguments_ok firewall_ok.
    destruct autostart_ok, arguments_ok, firewall_ok, ITALC_BUILD_WIN32,
      (guiApplication w && negb (silent w)); reflexivity.
Qed.

End ApplyConfiguration.

Section ListConfiguration.
Context {ext : Externals}.

Lemma append_assoc (a b c : string) : (a +:+ b) +:+ c = a +:+ (b +:+ c).
Proof.
  induction a as [|x a IH]; [reflexivity|].
  change (String x ((a +:+ b) +:+ c) = String x (a +:+ b +:+ c)).
  by f_equal.
Qed.

Lemma append_empty_r (a : string) : a +:+ "" = a.
Proof.
  induction a as [|x a IH]; [reflexivity|].
  change (String x (a +:+ "") = String x a). by f_equal.
Qed.

Lemma isEmpty_true s : isEmpty s = true ↔ s = "".
Proof. destruct s; simpl; split; congruence. Qed.

Lemma childKey_not_empty parent key :
  isEmpty parent = false → isEmpty (childKey parent key) = false.
Proof.
  unfold childKey. intros Hp. destruct parent; [discriminate | reflexivity].
Qed.

Lemma childKey_not_empty_eq parent key :
  isEmpty parent = false → childKey parent key = parent +:+ "/" +:+ key.
Proof. unfold childKey. by intros ->. Qed.

Lemma listing_app path_of l1 l2 :
  listing path_of (l1 ++ l2) = listing path_of l1 +:+ listing path_of l2.
Proof.
  unfold listing. induction l1 as [|[keys s] l1 IH]; [reflexivity|].
  cbn [app foldr]. by rewrite IH, !append_assoc.
Qed.

(** Below a non-empty parent key the source joins with slashes. *)
Lemma foldl_childKey_joined (keys : list string) (parent : string) :
  isEmpty parent = false →
  foldl childKey parent keys = slash_joined (parent :: keys).
Proof.
  revert parent. induction keys as [|k keys IH]; intros parent Hp.
  - reflexivity.
  - cbn [foldl]. rewrite IH by by apply childKey_not_empty.
    unfold childKey. rewrite Hp. unfold slash_joined.
    destruct keys as [|k' keys]; simpl; [reflexivity|].
    by rewrite !append_assoc.
Qed.

Lemma key_of_path_joined (keys : list string) :
  key_of_path keys = slash_joined (drop_leading_empty keys).
Proof.
  unfold key_of_path. induction keys as [|k keys IH]; [reflexivity|].
  cbn [foldl drop_leading_empty]. unfold childKey at 2. cbn [isEmpty].
  destruct (isEmpty k) eqn:Hk.
  - apply isEmpty_true in Hk. by subst k.
  - by apply foldl_childKey_joined.
Qed.

Lemma key_of_path_snoc (path : list string) (key : string) :
  key_of_path (path ++ [key]) = childKey (key_of_path path) key.
Proof. unfold key_of_path. by rewrite foldl_app. Qed.

Lemma listed_nothing w : listed "" 0 w = w.
Proof.
  unfold listed. simpl. rewrite append_empty_r, app_nil_r. by destruct w.
Qed.

Lemma listed_listed t1 n1 t2 n2 w :
  listed t2 n2 (listed t1 n1 w) = listed (t1 +:+ t2) (n1 + n2) w.
Proof.
  unfold listed. simpl.
  by rewrite append_assoc, replicate_add, app_assoc.
Qed.

Lemma listConfiguration_entry_run (v : QVariant) :
  ∀ (path : list string) (key : string) (w : World),
    listConfiguration_entry (key_of_path path) key v w
    = (tt, listed (listing key_of_path (string_leaves_below (path ++ [key]) v))
                  (other_entries_below v) w).
Proof.
  induction v as [| b | z | l | s | m IH] using QVariant_ind;
    intros path key w;
    try (cbn [listConfiguration_entry string_leaves_below other_entries_below
              listing];
         run_monad; unfold listed; simpl;
         rewrite ?append_empty_r; by destruct w).
  - (* a string leaf *)
    cbn [listConfiguration_entry string_leaves_below other_entries_below listing].
    run_monad. unfold listed. simpl.
    rewrite key_of_path_snoc, app_nil_r, append_empty_r. reflexivity.
  - (* a map: the loop over its entries *)
    cbn [listConfiguration_entry string_leaves_below other_entries_below].
    fold (childKey (key_of_path path) key). rewrite <- key_of_path_snoc.
    generalize (path ++ [key]). intros path'. clear path key.
    revert w. induction m as [|[k v'] m IHm]; intros w.
    + simpl. by rewrite listed_nothing.
    + inversion IH as [|? ? Hv Hm]; subst.
      cbn [snd] in Hv. cbn [for_each flat_map foldr]. run_monad.
      rewrite (Hv path' k w), (IHm Hm), listed_listed, listing_app.
      reflexivity.
Qed.

Lemma listConfiguration_map_run (m : DataMap) (w : World) :
  listConfiguration_map m "" w
  = (tt, listed (listing key_of_path (string_leaves m)) (other_entries m) w).
Proof.
  unfold listConfiguration_map, string_leaves, other_entries.
  revert w. induction m as [|[k v] m IH]; intros w.
  - simpl. by rewrite listed_nothing.
  - cbn [for_each flat_map foldr]. run_monad.
    pose proof (listConfiguration_entry_run v [] k w) as E.
    change (key_of_path []) with "" in E. cbn [app] in E.
    rewrite E, IH, listed_listed, listing_app. reflexivity.
Qed.

Lemma listing_ext (f g : list string → string) leaves :
  Forall (λ leaf, f leaf.1 = g leaf.1) leaves →
  listing f leaves = listing g leaves.
Proof.
  unfold listing. induction 1 as [|[keys s] leaves E _ IH]; [reflexivity|].
  cbn [foldr]. cbn [fst] in E. by rewrite E, IH.
Qed.

Lemma string_leaves_below_prefix (v : QVariant) :
  ∀ path, Forall (λ leaf, path `prefix_of` leaf.1) (string_leaves_below path v).
Proof.
  induction v as [| b | z | l | s | m IH] using QVariant_ind; intros path;
    cbn [string_leaves_below]; try by repeat constructor.
  induction m as [|[k v'] m IHm]; [constructor|].
  inversion IH as [|? ? Hv Hm]; subst. cbn [flat_map snd] in *.
  apply Forall_app. split; [|by apply IHm].
    eapply Forall_impl; [apply Hv|]. intros leaf Hleaf.
    etrans; [|apply Hleaf]. by apply prefix_app_r.
Qed.

Lemma drop_leading_empty_prefix (k : string) (keys : list string) :
  k ≠ "" → [k] `prefix_of` keys → drop_leading_empty keys = keys.
Proof.
  intros Hk [rest ->]. cbn [app drop_leading_empty].
  destruct (isEmpty k) eqn:E; [|reflexivity].
  by apply isEmpty_true in E.
Qed.

Lemma listConfiguration_run (c : ItalcConfiguration) (w : World) :
  final (listConfiguration c) w
  = listed (listing key_of_path (string_leaves (data c)))
           (other_entries (data c)) w.
Proof.
  unfold final, listConfiguration. by rewrite listConfiguration_map_run.
Qed.

(** C10, as the source has it. [listConfiguration] appends to the
    standard output one line [path=value] for each string-valued leaf of
    the nested map, in iteration order, and one warning for each entry
    that is neither a map nor a string; nothing else changes. The path is
    the slash-joined sequence of the keys from the root to the leaf after
    the empty keys at its front are dropped; it is the plain slash-joined
    sequence when no top-level key is empty. *)
Theorem listConfiguration_lists_string_leaves
    (c : ItalcConfiguration) (w : World) :
  let leaves := string_leaves (data c) in
  let after := final (listConfiguration c) w in
  after = listed (listing (λ keys, slash_joined (drop_leading_empty keys)) leaves)
                 (other_entries (data c)) w
  ∧ (Forall (λ kv, kv.1 ≠ "") (data c) →
     after = listed (listing slash_joined leaves) (other_entries (data c)) w).
Proof.
  intros leaves after. unfold after. rewrite listConfiguration_run.
  fold leaves. split.
  - f_equal. apply listing_ext, Forall_forall. intros leaf _.
    apply key_of_path_joined.
  - intros Hkeys. f_equal. apply listing_ext.
    unfold leaves, string_leaves. clear after leaves.
    induction Hkeys as [|[k v] m Hk _ IH]; [constructor|].
    cbn [flat_map]. apply Forall_app. split; [|exact IH].
    eapply Forall_impl; [apply string_leaves_below_prefix|].
    intros leaf Hleaf. cbn beta in *.
    rewrite key_of_path_joined. f_equal.
    by apply (drop_leading_empty_prefix k).
Qed.

(** The theorem at a configuration with a nested section and an integer
    entry. *)
Lemma listConfiguration_lists_string_leaves_witness :
  Forall (λ kv : string * QVariant, kv.1 ≠ "") (data sampleConfiguration)
  ∧ final (listConfiguration sampleConfiguration) Reference.emptyWorld
    = listed (listing slash_joined (string_leaves (data sampleConfiguration)))
             (other_entries (data sampleConfiguration)) Reference.emptyWorld.
Proof.
  assert (H : Forall (λ kv : string * QVariant, kv.1 ≠ "")
                     (data sampleConfiguration)).
  { repeat constructor; simpl; discriminate. }
  split; [exact H|].
  exact (proj2 (listConfiguration_lists_string_leaves
                  sampleConfiguration Reference.emptyWorld) H).
Defined.

End ListConfiguration.

(** C10 read literally fails: below an empty key the source does not write
    the slash, so the leaf under the keys [""] and ["a"] is listed as [a=v]
    and not as [/a=v]. *)
Lemma listConfiguration_empty_key_counterexample : ¬ lists_slash_joined_paths.
Proof.
  intros H.
  specialize (H emptyKeyConfiguration Reference.emptyWorld).
  vm_compute in H. discriminate H.
Qed.

Section Keys.
Context {ext : Externals}.

Lemma loadedKey_valid path w :
  isValid (loadedKey path w) = true
  ↔ ∃ f bits raw, files w !! path = Some f
                  ∧ parsePublicKey (f_data f) = Some (bits, raw)
                  ∧ loadedKey path w = mkKey PublicKey bits raw true.
Proof.
  unfold loadedKey, parsedKey. split.
  - destruct (files w !! path) as [f|]; [|discriminate].
    destruct (parsePublicKey (f_data f)) as [[bits raw]|] eqn:E;
      [|discriminate].
    intros _. by exists f, bits, raw.
  - intros (f & bits & raw & -> & -> & _). reflexivity.
Qed.

Lemma loadedKey_invalid path w :
  not_a_public_key path w → isValid (loadedKey path w) = false.
Proof.
  unfold not_a_public_key, loadedKey, parsedKey. intros H.
  destruct (files w !! path) as [f|]; [|reflexivity].
  by rewrite (H f eq_refl).
Qed.

Lemma PublicDSAKey_load_run path w :
  PublicDSAKey_load path w
  = (loadedKey path w, set_trace (trace w ++ [EvKeyLoad path]) w).
Proof. reflexivity. Qed.

Lemma importPublicKey_invalid_run role pubKey destDir w :
  isValid (loadedKey pubKey w) = false →
  importPublicKey role pubKey destDir w
  = (false,
     set_trace (trace w ++ [EvKeyLoad pubKey; invalidKeyMessage pubKey]) w).
Proof.
  intros Hbad. unfold importPublicKey.
  rewrite bind_run, PublicDSAKey_load_run, Hbad. simpl. run_monad.
  by rewrite <- app_assoc.
Qed.

(** C1. When the source file is missing or does not parse as a public
    key, [importPublicKey] returns [false] having only read the source and
    written a critical message: no file is created, changed or removed,
    so a key already at the destination stays as it is. *)
Theorem importPublicKey_invalid_source_untouched
    (role : UserRole) (pubKey destDir : string) (w : World) :
  not_a_public_key pubKey w →
  let run := importPublicKey role pubKey destDir in
  result run w = false
  ∧ files (final run w) = files w
  ∧ only_trace_changed w (final run w)
  ∧ new_events run w = [EvKeyLoad pubKey; invalidKeyMessage pubKey].
Proof.
  intros Hbad run. apply loadedKey_invalid in Hbad.
  pose proof (importPublicKey_invalid_run role pubKey destDir w Hbad) as E.
  fold run in E.
  unfold result, final, only_trace_changed. rewrite E. repeat split.
  apply new_events_of_trace. unfold final. by rewrite E.
Qed.

Lemma loadedKey_kind path w : key_kind (loadedKey path w) = PublicKey.
Proof.
  unfold loadedKey, parsedKey.
  destruct (files w !! path) as [f|]; [|reflexivity].
  by destruct (parsePublicKey (f_data f)) as [[bits raw]|].
Qed.

(** Runs of the file operations, in the normal form
    [set_files _ (set_trace _ w)]. *)
Lemma set_files_same w t : set_files (files w) (set_trace t w) = set_trace t w.
Proof. by destruct w. Qed.

Lemma QFile_exists_run p w :
  QFile_exists p w
  = (file_exists p w, set_trace (trace w ++ [EvFileExists p]) w).
Proof. reflexivity. Qed.

Lemma QFile_setPermissions_run p perms w :
  ∃ changed,
    QFile_setPermissions p perms w
    = (changed, set_files (files_after_setPermissions p perms w)
                          (set_trace (trace w ++ [EvSetPermissions p perms]) w)).
Proof.
  unfold QFile_setPermissions, files_after_setPermissions. run_monad.
  destruct (files w !! p) as [f|]; [|exists false; by rewrite set_files_same].
  destruct (bool_decide (p ∈ env_chmod_denied (env w)));
    [exists false; by rewrite set_files_same | by exists true].
Qed.

Lemma QFile_remove_run p w :
  QFile_remove p w
  = (removable p w,
     set_files (if removable p w then delete p (files w) else files w)
               (set_trace (trace w ++ [EvRemove p]) w)).
Proof.
  unfold QFile_remove. run_monad.
  change (removable p (set_trace (trace w ++ [EvRemove p]) w))
    with (removable p w).
  destruct (removable p w); [reflexivity | by rewrite set_files_same].
Qed.

Lemma DsaKey_save_run k p w :
  DsaKey_save k p w
  = (negb (bool_decide (p ∈ env_write_denied (env w))),
     set_files (if bool_decide (p ∈ env_write_denied (env w))
                then files w else <[p := keyFile k]> (files w))
               (set_trace (trace w ++ [EvKeySave (key_kind k) p]) w)).
Proof.
  unfold DsaKey_save. run_monad.
  destruct (bool_decide (p ∈ env_write_denied (env w)));
    [by rewrite set_files_same | reflexivity].
Qed.

(** The run of [importPublicKey] on a valid source key. *)
Lemma importPublicKey_valid_run role pubKey destDir w :
  isValid (loadedKey pubKey w) = true →
  let pub := publicKeyPath role destDir in
  let k := loadedKey pubKey w in
  let fs1 := files_after_setPermissions pub [WriteOwner] w in
  let steps := [EvKeyLoad pubKey; EvFileExists pub;
                EvSetPermissions pub [WriteOwner]; EvRemove pub] in
  let denied := bool_decide (pub ∈ env_write_denied (env w)) in
  importPublicKey role pubKey destDir w
  = match files w !! pub with
    | None =>
        (negb denied,
         set_files (if denied then files w else <[pub := keyFile k]> (files w))
           (set_trace (trace w ++ [EvKeyLoad pubKey; EvFileExists pub;
                                   EvKeySave PublicKey pub]) w))
    | Some f =>
        if removable pub (set_files fs1 w) then
          (negb denied,
           set_files (if denied then delete pub fs1
                      else <[pub := keyFile k]> (delete pub fs1))
             (set_trace (trace w ++ steps ++ [EvKeySave PublicKey pub]) w))
        else
          (false,
           set_files fs1
             (set_trace (trace w ++ steps ++ [removeFailedMessage pub]) w))
    end.
Proof.
  intros Hvalid pub k fs1 steps denied.
  unfold importPublicKey.
  rewrite bind_run, PublicDSAKey_load_run, Hvalid. fold pub k.
  cbn [negb]. cbv iota.
  rewrite bind_run, QFile_exists_run. unfold file_exists. cbn [files set_trace].
  destruct (files w !! pub) as [f|] eqn:Hf.
  - rewrite bool_decide_true by eauto.
    rewrite bind_run.
    match goal with
    | |- context [QFile_setPermissions ?p ?perms ?w0] =>
        destruct (QFile_setPermissions_run p perms w0) as [changed ->]
    end.
    rewrite bind_run, QFile_remove_run.
    repeat change (files_after_setPermissions ?p ?perms (set_trace ?t ?w0))
      with (files_after_setPermissions p perms w0).
    fold fs1.
    repeat change (removable ?p (set_files ?fs (set_trace ?t ?w0)))
      with (removable p (set_files fs w0)).
    destruct (removable pub (set_files fs1 w)); cbn [negb]; cbv iota.
    + rewrite DsaKey_save_run, (loadedKey_kind pubKey w : key_kind k = _).
      cbn [files env trace set_files set_trace]. fold denied.
      destruct denied; cbn [negb]; rewrite <- !app_assoc; reflexivity.
    + run_monad. rewrite <- !app_assoc. reflexivity.
  - rewrite bool_decide_false by (intros [? ?]; discriminate).
    rewrite DsaKey_save_run, (loadedKey_kind pubKey w : key_kind k = _).
    cbn [files env trace set_files set_trace]. fold denied.
    rewrite <- !app_assoc. reflexivity.
Qed.

(** What [setPermissions] leaves of a file that was there. *)
Lemma files_after_setPermissions_lookup p perms w old :
  files w !! p = Some old →
  ∃ kept, files_after_setPermissions p perms w !! p = Some kept
          ∧ f_data kept = f_data old.
Proof.
  intros Hold. unfold files_after_setPermissions. rewrite Hold.
  destruct (bool_decide (p ∈ env_chmod_denied (env w))).
  - by exists old.
  - eexists. by rewrite lookup_insert_eq.
Qed.

Lemma delete_files_after_setPermissions p perms w :
  delete p (files_after_setPermissions p perms w) = delete p (files w).
Proof.
  unfold files_after_setPermissions.
  destruct (files w !! p) as [f|]; [|reflexivity].
  destruct (bool_decide (p ∈ env_chmod_denied (env w))); [reflexivity|].
  apply delete_insert_eq.
Qed.

(** C2, as the source has it. When [importPublicKey] fails while a key is
    installed, the previous key bytes are still in place if the source
    was rejected or if the installed file could not be removed; if the
    removal went through and the save failed, the previous key is gone
    and nothing stands in its place. *)
Theorem importPublicKey_failure_outcomes
    (role : UserRole) (pubKey destDir : string) (w : World) (old : File) :
  let pub := publicKeyPath role destDir in
  let run := importPublicKey role pubKey destDir in
  let fs1 := files_after_setPermissions pub [WriteOwner] w in
  files w !! pub = Some old →
  result run w = false →
  (isValid (loadedKey pubKey w) = false ∧ files (final run w) = files w)
  ∨ (isValid (loadedKey pubKey w) = true
     ∧ removable pub (set_files fs1 w) = false
     ∧ files (final run w) = fs1
     ∧ ∃ kept, files (final run w) !! pub = Some kept
               ∧ f_data kept = f_data old)
  ∨ (isValid (loadedKey pubKey w) = true
     ∧ removable pub (set_files fs1 w) = true
     ∧ pub ∈ env_write_denied (env w)
     ∧ files (final run w) = delete pub (files w)
     ∧ files (final run w) !! pub = None).
Proof.
  intros pub run fs1 Hold. unfold result, final, run.
  destruct (isValid (loadedKey pubKey w)) eqn:Hvalid.
  - rewrite (importPublicKey_valid_run role pubKey destDir w Hvalid).
    cbv zeta. fold pub fs1. rewrite Hold.
    destruct (removable pub (set_files fs1 w)) eqn:Hrm.
    + destruct (bool_decide (pub ∈ env_write_denied (env w))) eqn:Hden;
        cbn [fst snd negb files set_files]; [|discriminate].
      intros _. right. right. apply bool_decide_eq_true in Hden.
      unfold fs1. rewrite delete_files_after_setPermissions.
      repeat split; [done|]. apply lookup_delete_eq.
    + cbn [fst snd files set_files]. intros _. right. left.
      repeat split.
      by apply files_after_setPermissions_lookup.
  - rewrite (importPublicKey_invalid_run role pubKey destDir w Hvalid).
    intros _. by left.
Qed.

(** C3. Provided saving then loading a public key gives the key back,
    a successful [importPublicKey] leaves at the destination exactly the
    serialized imported key, every other file as it was, and the stored
    public key of the role is the imported key, whatever key was
    installed before. *)
Theorem importPublicKey_success_installs_key
    (role : UserRole) (pubKey destDir : string) (w : World) :
  let pub := publicKeyPath role destDir in
  let run := importPublicKey role pubKey destDir in
  let k := loadedKey pubKey w in
  public_key_round_trip →
  result run w = true →
  isValid k = true
  ∧ files (final run w) = <[pub := keyFile k]> (files w)
  ∧ (∃ f, files (final run w) !! pub = Some f
          ∧ f_data f = serializePublicKey (key_bits k) (key_bytes k))
  ∧ currentPublicKey role destDir (final run w) = Some k
  ∧ (∀ previous, currentPublicKey role destDir w = Some previous →
                 previous ≠ k →
                 currentPublicKey role destDir (final run w) ≠ Some previous).
Proof.
  intros pub run k Hrt. unfold result, final, run.
  destruct (isValid (loadedKey pubKey w)) eqn:Hvalid.
  2: { rewrite (importPublicKey_invalid_run role pubKey destDir w Hvalid).
       discriminate. }
  rewrite (importPublicKey_valid_run role pubKey destDir w Hvalid).
  cbv zeta. fold pub k.
  assert (Hfiles : ∀ after : World,
            files after = <[pub := keyFile k]> (files w) →
            isValid k = true
            ∧ files after = <[pub := keyFile k]> (files w)
            ∧ (∃ f, files after !! pub = Some f
                    ∧ f_data f = serializePublicKey (key_bits k) (key_bytes k))
            ∧ currentPublicKey role destDir after = Some k
            ∧ (∀ previous, currentPublicKey role destDir w = Some previous →
                           previous ≠ k →
                           currentPublicKey role destDir after ≠ Some previous)).
  { intros after Hafter.
    assert (Hcur : currentPublicKey role destDir after = Some k).
    { unfold currentPublicKey. fold pub. rewrite Hafter, lookup_insert_eq.
      cbn. f_equal.
      apply loadedKey_valid in Hvalid as (f & bits & raw & _ & Hparse & Hk).
      fold k in Hk. rewrite Hk. unfold keyFile, serializeKey, parsedKey.
      cbn. by rewrite (Hrt _ _ _ Hparse). }
    split; [exact Hvalid|]. split; [exact Hafter|]. split; [|split].
    - exists (keyFile k). rewrite Hafter, lookup_insert_eq. split; [done|].
      unfold keyFile, serializeKey. cbn.
      by rewrite (loadedKey_kind pubKey w : key_kind k = _).
    - exact Hcur.
    - intros previous _ Hne. rewrite Hcur. congruence. }
  destruct (files w !! pub) as [old|] eqn:Hold.
  - destruct (removable pub _); [|discriminate].
    destruct (bool_decide (pub ∈ env_write_denied (env w)));
      cbn [fst snd negb]; [discriminate|].
    intros _. apply Hfiles. cbn [files set_files].
    by rewrite delete_files_after_setPermissions, insert_delete_eq.
  - destruct (bool_decide (pub ∈ env_write_denied (env w)));
      cbn [fst snd negb]; [discriminate|].
    intros _. by apply Hfiles.
Qed.

(** C5, as the source has it. On a valid source key and an existing
    destination, [importPublicKey] does not inspect the permissions of
    the destination: it sets them to [WriteOwner], whatever the result,
    and then attempts the removal. If the removal fails it returns
    [false] and no key is saved: the destination keeps its bytes, with
    the permissions [setPermissions] left. If the removal succeeds the
    save follows. *)
Theorem importPublicKey_existing_destination
    (role : UserRole) (pubKey destDir : string) (w : World) (old : File) :
  let pub := publicKeyPath role destDir in
  let run := importPublicKey role pubKey destDir in
  let fs1 := files_after_setPermissions pub [WriteOwner] w in
  let steps := [EvKeyLoad pubKey; EvFileExists pub;
                EvSetPermissions pub [WriteOwner]; EvRemove pub] in
  isValid (loadedKey pubKey w) = true →
  files w !! pub = Some old →
  (∃ more, new_events run w = steps ++ more)
  ∧ (removable pub (set_files fs1 w) = false →
     result run w = false
     ∧ filter is_key_save (new_events run w) = []
     ∧ files (final run w) = fs1
     ∧ ∃ kept, files (final run w) !! pub = Some kept
               ∧ f_data kept = f_data old)
  ∧ (removable pub (set_files fs1 w) = true →
     new_events run w = steps ++ [EvKeySave PublicKey pub]
     ∧ result run w = negb (bool_decide (pub ∈ env_write_denied (env w)))).
Proof.
  intros pub run fs1 steps Hvalid Hold.
  pose proof (importPublicKey_valid_run role pubKey destDir w Hvalid) as E.
  cbv zeta in E. fold pub run fs1 steps in E. rewrite Hold in E.
  destruct (removable pub (set_files fs1 w)) eqn:Hrm.
  - assert (Ev : new_events run w = steps ++ [EvKeySave PublicKey pub]).
    { apply new_events_of_trace. unfold final. by rewrite E. }
    split; [by eexists|]. split; [discriminate|]. intros _.
    split; [exact Ev|]. unfold result. by rewrite E.
  - assert (Ev : new_events run w = steps ++ [removeFailedMessage pub]).
    { apply new_events_of_trace. unfold final. by rewrite E. }
    split; [by eexists|]. split; [|discriminate]. intros _.
    unfold result, final. rewrite Ev, E. cbn [fst snd files set_files].
    repeat split. by apply files_after_setPermissions_lookup.
Qed.

(** C4. [createKeyPair] asks the generator for a private key of 1024
    bits. If generation fails it returns [false] and saves nothing. If
    saving the private key at the private-key path fails it returns
    [false] and does not attempt the public key. If saving the derived
    public key at the public-key path fails it returns [false], the
    private key file being written. Otherwise both files are written and
    it returns [true]. *)
Theorem createKeyPair_steps (role : UserRole) (destDir : string) (w : World) :
  let priv := privateKeyPath role destDir in
  let pub := publicKeyPath role destDir in
  let run := createKeyPair role destDir in
  let start := [creatingMessage priv pub; EvKeyGenerate 1024] in
  match entropy w with
  | [] =>
      result run w = false
      ∧ files (final run w) = files w
      ∧ new_events run w = start ++ [EvLogFailed "key generation"]
  | raw :: rest =>
      let pkey := mkKey PrivateKey 1024 raw true in
      entropy (final run w) = rest
      ∧ if bool_decide (priv ∈ env_write_denied (env w)) then
          result run w = false
          ∧ files (final run w) = files w
          ∧ new_events run w
            = start ++ [EvKeySave PrivateKey priv;
                        EvLogFailed "saving private key"]
        else if bool_decide (pub ∈ env_write_denied (env w)) then
          result run w = false
          ∧ files (final run w) = <[priv := keyFile pkey]> (files w)
          ∧ new_events run w
            = start ++ [EvKeySave PrivateKey priv; EvKeySave PublicKey pub;
                        EvLogFailed "saving public key"]
        else
          result run w = true
          ∧ files (final run w)
            = <[pub := keyFile (PublicDSAKey_of pkey)]>
                (<[priv := keyFile pkey]> (files w))
          ∧ new_events run w
            = start ++ [EvKeySave PrivateKey priv; EvKeySave PublicKey pub]
          ∧ stdout (final run w)
            = (stdout w +:+ keyPairSavedMessage (constData priv) (constData pub))
              +:+ ownershipAdvice
  end.
Proof.
  intros priv pub run start.
  unfold new_events, result, final, run, createKeyPair,
    PrivateDSAKey_generate, DsaKey_save, start, creatingMessage.
  fold priv pub. run_keys.
  destruct (entropy w) as [|raw rest]; run_keys.
  { rewrite <- !app_assoc, drop_app_length. by repeat split. }
  split.
  { by repeat (case_bool_decide; run_keys). }
  destruct (bool_decide (priv ∈ env_write_denied (env w))); run_keys.
  { rewrite <- !app_assoc, drop_app_length. by repeat split. }
  destruct (bool_decide (pub ∈ env_write_denied (env w))); run_keys.
  { rewrite <- !app_assoc, drop_app_length. by repeat split. }
  rewrite <- !app_assoc, drop_app_length. by repeat split.
Qed.

End Keys.

(** * The theorems at sample states, and what fails *)

Section OnSamples.
Import Reference Samples.

Lemma reference_round_trip : public_key_round_trip (ext := Reference.externals).
Proof.
  intros content bits raw H. cbn in *. unfold Reference.parse in H.
  destruct content as [|b1 [|b2 content]]; try discriminate;
    destruct b1; try discriminate; destruct b2; try discriminate.
  by injection H as <- _.
Defined.

Lemma broken_is_not_a_key :
  not_a_public_key (ext := Reference.externals) brokenKeyPath installed.
Proof.
  intros f H. vm_compute in H. injection H as <-. reflexivity.
Defined.

(** C7, as the source has it, in silent mode. *)
Lemma messages_log_only_when_silent_witness :
  (silent quiet = true ∨ guiApplication quiet = false)
  ∧ has_nul "Key import" = false
  ∧ has_nul "done" = false
  ∧ new_events (informationMessage "Key import" "done") quiet
    = [EvLog LogLevelInfo ["Key import"; ":"; "done"]]
  ∧ new_events (criticalMessage "Key import" "done") quiet
    = [EvLog LogLevelCritical ["Key import"; ":"; "done"]].
Proof.
  assert (H : silent quiet = true ∨ guiApplication quiet = false)
    by (left; reflexivity).
  split; [exact H|]. split; [reflexivity|]. split; [reflexivity|].
  destruct (messages_log_only_when_silent "Key import" "done" quiet)
    as (_ & _ & _ & _ & Q).
  destruct (Q H) as (_ & _ & _ & Hplain).
  exact (Hplain eq_refl eq_refl).
Defined.

(** C1 on a truncated file, a supporter key being installed. *)
Lemma importPublicKey_invalid_source_untouched_witness :
  not_a_public_key (ext := Reference.externals) brokenKeyPath installed
  ∧ result (importPublicKey RoleSupporter brokenKeyPath "") installed = false
  ∧ files (final (importPublicKey RoleSupporter brokenKeyPath "") installed)
    = files installed.
Proof.
  split; [exact broken_is_not_a_key|].
  destruct (importPublicKey_invalid_source_untouched (ext := Reference.externals)
              RoleSupporter brokenKeyPath "" installed broken_is_not_a_key)
    as (Hr & Hf & _).
  by split.
Defined.

(** C2, as the source has it, where the save fails after the removal. *)
Lemma importPublicKey_failure_outcomes_witness :
  files installedNoSpace !! supporterKey = Some oldKeyFile
  ∧ result (importPublicKey RoleSupporter newKeyPath "") installedNoSpace = false
  ∧ files (final (importPublicKey RoleSupporter newKeyPath "") installedNoSpace)
      !! supporterKey = None.
Proof.
  assert (Hold : files installedNoSpace !! publicKeyPath RoleSupporter ""
                 = Some oldKeyFile) by (vm_compute; reflexivity).
  assert (Hres : result (importPublicKey RoleSupporter newKeyPath "")
                   installedNoSpace = false) by (vm_compute; reflexivity).
  split; [exact Hold|]. split; [exact Hres|].
  destruct (importPublicKey_failure_outcomes (ext := Reference.externals)
              RoleSupporter newKeyPath "" installedNoSpace oldKeyFile Hold Hres)
    as [[Hv _] | [(_ & Hrm & _) | (_ & _ & _ & _ & Hnone)]].
  - vm_compute in Hv. discriminate Hv.
  - vm_compute in Hrm. discriminate Hrm.
  - exact Hnone.
Defined.

(** C3 on a new key imported over the installed one. *)
Lemma importPublicKey_success_installs_key_witness :
  public_key_round_trip (ext := Reference.externals)
  ∧ result (importPublicKey RoleSupporter newKeyPath "") installed = true
  ∧ currentPublicKey RoleSupporter ""
      (final (importPublicKey RoleSupporter newKeyPath "") installed)
    = Some (loadedKey newKeyPath installed).
Proof.
  assert (Hres : result (importPublicKey RoleSupporter newKeyPath "") installed
                 = true) by (vm_compute; reflexivity).
  split; [exact reference_round_trip|]. split; [exact Hres|].
  exact (proj1 (proj2 (proj2 (proj2
    (importPublicKey_success_installs_key (ext := Reference.externals)
       RoleSupporter newKeyPath "" installed reference_round_trip Hres))))).
Defined.

(** C5, as the source has it, where the installed key cannot be
    deleted. *)
Lemma importPublicKey_existing_destination_witness :
  isValid (loadedKey newKeyPath installedLocked) = true
  ∧ files installedLocked !! supporterKey = Some oldKeyFile
  ∧ result (importPublicKey RoleSupporter newKeyPath "") installedLocked = false
  ∧ filter is_key_save
      (new_events (importPublicKey RoleSupporter newKeyPath "") installedLocked)
    = [].
Proof.
  assert (Hv : isValid (loadedKey newKeyPath installedLocked) = true)
    by (vm_compute; reflexivity).
  assert (Hold : files installedLocked !! publicKeyPath RoleSupporter ""
                 = Some oldKeyFile) by (vm_compute; reflexivity).
  split; [exact Hv|]. split; [exact Hold|].
  destruct (importPublicKey_existing_destination (ext := Reference.externals)
              RoleSupporter newKeyPath "" installedLocked oldKeyFile Hv Hold)
    as (_ & Hfail & _).
  assert (Hrm : removable supporterKey
                  (set_files (files_after_setPermissions supporterKey
                                [WriteOwner] installedLocked) installedLocked)
                = false) by (vm_compute; reflexivity).
  destruct (Hfail Hrm) as (Hr & Hs & _). by split.
Defined.

(** [createKeyPair] with key material at hand, and without. *)
Example createKeyPair_seeded :
  result (createKeyPair RoleTeacher "/srv/keys") seeded = true
  ∧ f_perms <$> files (final (createKeyPair RoleTeacher "/srv/keys") seeded)
                  !! "/srv/keys/private/teacher/key"
    = Some [ReadOwner; WriteOwner; ReadGroup]
  ∧ f_data <$> files (final (createKeyPair RoleTeacher "/srv/keys") seeded)
                 !! "/srv/keys/public/teacher/key"
    = Some [Byte.x44; Byte.x53; Byte.x33; Byte.x22; Byte.x11].
Proof. vm_compute. by repeat split. Qed.

Example createKeyPair_without_entropy :
  result (createKeyPair RoleTeacher "/srv/keys") emptyWorld = false
  ∧ files (final (createKeyPair RoleTeacher "/srv/keys") emptyWorld) = ∅.
Proof. vm_compute. by split. Qed.

End OnSamples.

(** C7 read literally fails: of the title made of [a], U+0000 and [b] the
    log entry holds [a] alone, the C string the source streams. *)
Lemma messages_log_truncated_counterexample : ¬ logs_title_and_message_only.
Proof.
  intros H.
  destruct (H titleWithNul "done" Samples.quiet) as [Hinfo _].
  - left. reflexivity.
  - vm_compute in Hinfo. discriminate Hinfo.
Qed.

(** C2 read literally fails: the installed supporter key can be deleted,
    the new file cannot be created, and the failed import leaves no key at
    the destination. *)
Lemma importPublicKey_not_atomic_counterexample :
  ¬ failed_import_keeps_previous_key.
Proof.
  intros H.
  destruct (H Reference.externals RoleSupporter Samples.newKeyPath ""
              Samples.installedNoSpace
              Samples.oldKeyFile) as (kept & Hkept & _).
  - vm_compute. reflexivity.
  - vm_compute. reflexivity.
  - vm_compute in Hkept. discriminate Hkept.
Qed.

(** C5 read literally fails: the installed supporter key cannot be
    deleted, the import fails, and yet the file was changed, its
    permissions now being [WriteOwner] alone. *)
Lemma importPublicKey_chmod_counterexample : ¬ removal_is_checked_first.
Proof.
  intros H.
  destruct (H Reference.externals RoleSupporter Samples.newKeyPath ""
              Samples.installedLocked
              Samples.oldKeyFile) as (_ & Hfiles & _).
  - vm_compute. reflexivity.
  - vm_compute. reflexivity.
  - vm_compute. reflexivity.
  - apply (f_equal (λ fs : gmap string File, f_perms <$> fs !! Samples.supporterKey))
      in Hfiles.
    vm_compute in Hfiles. discriminate Hfiles.
Qed.

(** * Further properties of the functions *)

Section MessagesInteractive.
Context {ext : Externals}.

(** X1. In a [QApplication] that is not silent, [informationMessage] and
    [criticalMessage] append the log entry and then exactly one message
    box of the matching icon. The box shows the whole title and text; the
    log entry holds each of them only up to its first U+0000. *)
Theorem messages_show_one_box_when_interactive (title msg : string) (w : World) :
  guiApplication w = true →
  silent w = false →
  new_events (informationMessage title msg) w
  = [EvLog LogLevelInfo [constData title; ":"; constData msg];
     EvMessageBox BoxInformation title msg]
  ∧ new_events (criticalMessage title msg) w
    = [EvLog LogLevelCritical [constData title; ":"; constData msg];
       EvMessageBox BoxCritical title msg].
Proof.
  intros Hgui Hsilent. split; apply new_events_of_trace; unfold final.
  - rewrite informationMessage_run. unfold message_events.
    by rewrite Hgui, Hsilent.
  - rewrite criticalMessage_run. unfold message_events.
    by rewrite Hgui, Hsilent.
Qed.

(** X2. The number of message boxes [applyConfiguration] shows is the
    number of failed system modifications in a [QApplication] that is not
    silent, and none otherwise; no box is shown for a step that
    succeeded. *)
Theorem applyConfiguration_message_boxes (c : ItalcConfiguration) (w : World) :
  let merged := config_merge (config w) c in
  let outcomes :=
    [env_setServiceAutostart (env w) (autostartService merged);
     env_setServiceArguments (env w) (serviceArguments merged);
     env_enableFirewallException (env w) (isFirewallExceptionEnabled merged)] in
  length (filter is_message_box (new_events (applyConfiguration c) w))
  = if guiApplication w && negb (silent w)
    then length (filter negb outcomes) else 0.
Proof.
  intros merged outcomes.
  pose proof (applyConfiguration_run c w) as E. cbv zeta in E. fold merged in E.
  erewrite new_events_of_trace; [|unfold final; rewrite E; reflexivity].
  unfold outcomes, failure_report, message_events.
  destruct (env_setServiceAutostart _ _), (env_setServiceArguments _ _),
    (env_enableFirewallException _ _), ITALC_BUILD_WIN32,
    (guiApplication w && negb (silent w)); reflexivity.
Qed.

(** X3. [applyConfiguration] reads and writes no key: the files, the
    generator, the standard output and the two mode flags are as before,
    and it never tries to save, load, generate or remove anything. *)
Theorem applyConfiguration_leaves_keys_alone (c : ItalcConfiguration) (w : World) :
  let after := final (applyConfiguration c) w in
  files after = files w
  ∧ entropy after = entropy w
  ∧ stdout after = stdout w
  ∧ silent after = silent w
  ∧ guiApplication after = guiApplication w
  ∧ env after = env w
  ∧ Forall (λ e, is_system_step e || is_critical_log e || is_message_box e = true)
           (new_events (applyConfiguration c) w).
Proof.
  intros after. unfold after.
  pose proof (applyConfiguration_run c w) as E. cbv zeta in E.
  erewrite new_events_of_trace; [|unfold final; rewrite E; reflexivity].
  unfold final. rewrite E. cbn [snd]. repeat split.
  unfold failure_report, message_events.
  destruct (env_setServiceAutostart _ _), (env_setServiceArguments _ _),
    (env_enableFirewallException _ _), ITALC_BUILD_WIN32,
    (guiApplication w && negb (silent w)); repeat constructor.
Qed.

End MessagesInteractive.

Section ListConfigurationFurther.
Context {ext : Externals}.

Lemma string_leaves_app (m1 m2 : DataMap) :
  string_leaves (m1 ++ m2) = string_leaves m1 ++ string_leaves m2.
Proof. unfold string_leaves. apply flat_map_app. Qed.

Lemma other_entries_app (m1 m2 : DataMap) :
  other_entries (m1 ++ m2) = other_entries m1 + other_entries m2.
Proof.
  unfold other_entries. induction m1 as [|[k v] m1 IH]; [reflexivity|].
  cbn [app foldr]. rewrite IH. lia.
Qed.

(** One iteration of the loop depends on the parent key and the key only
    through the key it passes down. *)
Lemma listConfiguration_entry_childKey (p k p' k' : string) (v : QVariant) :
  childKey p k = childKey p' k' →
  listConfiguration_entry p k v = listConfiguration_entry p' k' v.
Proof.
  unfold childKey. intros H.
  destruct v; cbn [listConfiguration_entry]; try rewrite H; reflexivity.
Qed.

(** X5. The listing does not tell a key that contains a slash from a
    nested section: under any parent key, the map whose only entry is
    [k1/k2] holding a value is listed exactly like the map whose only
    entry is the section [k1] holding that value under [k2], provided
    [k1] is not empty. *)
Theorem listConfiguration_slash_key_ambiguous
    (parentKey k1 k2 : string) (v : QVariant) (w : World) :
  k1 ≠ "" →
  listConfiguration_map [(k1 +:+ "/" +:+ k2, v)] parentKey w
  = listConfiguration_map [(k1, VMap [(k2, v)])] parentKey w
  ∧ listConfiguration (mkConfig [(k1 +:+ "/" +:+ k2, v)]) w
    = listConfiguration (mkConfig [(k1, VMap [(k2, v)])]) w.
Proof.
  intros Hk.
  assert (Hne : isEmpty k1 = false).
  { destruct (isEmpty k1) eqn:E; [|reflexivity]. by apply isEmpty_true in E. }
  assert (H : ∀ p, listConfiguration_map [(k1 +:+ "/" +:+ k2, v)] p w
                   = listConfiguration_map [(k1, VMap [(k2, v)])] p w).
  { intros p. unfold listConfiguration_map. cbn [for_each].
    rewrite !bind_run.
    replace (listConfiguration_entry p k1 (VMap [(k2, v)]) w)
      with (listConfiguration_entry p (k1 +:+ "/" +:+ k2) v w); [reflexivity|].
    cbn [listConfiguration_entry for_each]. fold (childKey p k1).
    rewrite bind_run.
    rewrite (listConfiguration_entry_childKey p (k1 +:+ "/" +:+ k2)
               (childKey p k1) k2 v).
    - by destruct (listConfiguration_entry (childKey p k1) k2 v w) as [[] w'].
    - rewrite (childKey_not_empty_eq (childKey p k1) k2)
        by (unfold childKey; destruct (isEmpty p);
            [exact Hne | by destruct p]).
      unfold childKey. destruct (isEmpty p); [reflexivity|].
      by rewrite !append_assoc. }
  split; [apply H|]. unfold listConfiguration. cbn [data]. apply H.
Qed.

Lemma string_leaves_below_cons (parent : string) (v : QVariant) :
  ∀ path, string_leaves_below (parent :: path) v
          = map (λ leaf, (parent :: leaf.1, leaf.2)) (string_leaves_below path v).
Proof.
  induction v as [| b | z | l | s | m IH] using QVariant_ind; intros path;
    cbn [string_leaves_below map]; try reflexivity.
  induction m as [|[k v'] m IHm]; [reflexivity|].
  inversion IH as [|? ? Hv Hm]; subst. cbn [flat_map snd] in *.
  rewrite map_app, <- (IHm Hm). f_equal.
  apply (Hv (path ++ [k])).
Qed.

(** The run of the static [listConfiguration] below the keys [path]. *)
Lemma listConfiguration_map_below (m : DataMap) (path : list string) (w : World) :
  listConfiguration_map m (key_of_path path) w
  = (tt, listed (listing key_of_path
                   (flat_map (λ '(k, v), string_leaves_below (path ++ [k]) v) m))
                (other_entries m) w).
Proof.
  unfold listConfiguration_map, other_entries.
  revert w. induction m as [|[k v] m IH]; intros w.
  - simpl. by rewrite listed_nothing.
  - cbn [for_each flat_map foldr]. run_monad.
    rewrite (listConfiguration_entry_run v path k w), IH, listed_listed,
      listing_app.
    reflexivity.
Qed.

Lemma key_of_path_under (parent : string) (keys : list string) :
  isEmpty parent = false → keys ≠ [] →
  key_of_path (parent :: keys) = parent +:+ "/" +:+ slash_joined keys.
Proof.
  intros Hp Hkeys. unfold key_of_path.
  change (foldl childKey "" (parent :: keys)) with (foldl childKey parent keys).
  rewrite foldl_childKey_joined by exact Hp.
  destruct keys; [done | reflexivity].
Qed.

(** X6. Under a parent key that is not empty the static
    [listConfiguration] writes, for each string-valued leaf, the parent
    key, a slash and the slash-joined keys from the listed map to the
    leaf: there no key is dropped, empty or not. *)
Theorem listConfiguration_map_under_parent
    (m : DataMap) (parentKey : string) (w : World) :
  parentKey ≠ "" →
  final (listConfiguration_map m parentKey) w
  = listed (listing (λ keys, parentKey +:+ "/" +:+ slash_joined keys)
                    (string_leaves m))
           (other_entries m) w.
Proof.
  intros Hp.
  assert (Hne : isEmpty parentKey = false).
  { destruct (isEmpty parentKey) eqn:E; [|reflexivity].
    by apply isEmpty_true in E. }
  pose proof (listConfiguration_map_below m [parentKey] w) as E.
  change (key_of_path [parentKey]) with parentKey in E.
  unfold final. rewrite E. cbn [snd app]. f_equal.
  unfold string_leaves. clear E.
  induction m as [|[k v] m IH]; [reflexivity|].
  cbn [flat_map]. rewrite !listing_app, IH. f_equal.
  rewrite string_leaves_below_cons.
  pose proof (string_leaves_below_prefix v [k]) as Hpre.
  induction Hpre as [|[keys s] leaves [rest Hkeys] _ IHl]; [reflexivity|].
  cbn [fst] in Hkeys. subst keys.
  change (listing ?f (map ?g (?leaf :: leaves)))
    with ((f (g leaf).1 +:+ "=" +:+ (g leaf).2 +:+ nl) +:+ listing f (map g leaves)).
  rewrite IHl. cbn [fst snd].
  rewrite (key_of_path_under parentKey ([k] ++ rest)) by done.
  reflexivity.
Qed.

End ListConfigurationFurther.

Section KeysFurther.
Context {ext : Externals}.

(** The run of [createKeyPair], case by case. *)
Lemma createKeyPair_run (role : UserRole) (destDir : string) (w : World) :
  let priv := privateKeyPath role destDir in
  let pub := publicKeyPath role destDir in
  let start := [creatingMessage priv pub; EvKeyGenerate 1024] in
  createKeyPair role destDir w
  = match entropy w with
    | [] =>
        (false, set_trace (trace w ++ start ++ [EvLogFailed "key generation"]) w)
    | raw :: rest =>
        let pkey := mkKey PrivateKey 1024 raw true in
        if bool_decide (priv ∈ env_write_denied (env w)) then
          (false,
           set_entropy rest
             (set_trace (trace w ++ start ++ [EvKeySave PrivateKey priv;
                                              EvLogFailed "saving private key"]) w))
        else if bool_decide (pub ∈ env_write_denied (env w)) then
          (false,
           set_files (<[priv := keyFile pkey]> (files w))
             (set_entropy rest
                (set_trace (trace w ++ start ++ [EvKeySave PrivateKey priv;
                                                 EvKeySave PublicKey pub;
                                                 EvLogFailed "saving public key"]) w)))
        else
          (true,
           set_stdout ((stdout w +:+ keyPairSavedMessage (constData priv)
                                                         (constData pub))
                       +:+ ownershipAdvice)
             (set_files (<[pub := keyFile (generatedPublicKey raw)]>
                           (<[priv := keyFile pkey]> (files w)))
                (set_entropy rest
                   (set_trace (trace w ++ start ++ [EvKeySave PrivateKey priv;
                                                    EvKeySave PublicKey pub]) w))))
    end.
Proof.
  intros priv pub start.
  unfold createKeyPair, PrivateDSAKey_generate, DsaKey_save, start,
    creatingMessage, generatedPublicKey.
  fold priv pub. run_keys.
  destruct (entropy w) as [|raw rest]; run_keys.
  { by rewrite <- !app_assoc. }
  destruct (bool_decide (priv ∈ env_write_denied (env w))); run_keys.
  { by rewrite <- !app_assoc. }
  destruct (bool_decide (pub ∈ env_write_denied (env w))); run_keys;
    by rewrite <- !app_assoc.
Qed.

Lemma files_after_setPermissions_ne p perms w p' :
  p' ≠ p → files_after_setPermissions p perms w !! p' = files w !! p'.
Proof.
  intros Hne. unfold files_after_setPermissions.
  destruct (files w !! p) as [f|]; [|reflexivity].
  destruct (bool_decide (p ∈ env_chmod_denied (env w))); [reflexivity|].
  by rewrite lookup_insert_ne.
Qed.

(** X7. [importPublicKey] returns [true] exactly when the source is a
    valid public key, the destination can be written and, if a file is
    already there, its removal goes through once its permissions were set
    to [WriteOwner]. *)
Theorem importPublicKey_succeeds_exactly_when
    (role : UserRole) (pubKey destDir : string) (w : World) :
  let pub := publicKeyPath role destDir in
  result (importPublicKey role pubKey destDir) w
  = isValid (loadedKey pubKey w)
    && negb (bool_decide (pub ∈ env_write_denied (env w)))
    && match files w !! pub with
       | None => true
       | Some _ => removable_after_chmod pub w
       end.
Proof.
  intros pub. unfold result, removable_after_chmod.
  destruct (isValid (loadedKey pubKey w)) eqn:Hvalid.
  - rewrite (importPublicKey_valid_run role pubKey destDir w Hvalid).
    cbv zeta. fold pub.
    destruct (files w !! pub) as [old|].
    + destruct (removable pub _); cbn [fst andb];
        by rewrite ?andb_true_r, ?andb_false_r.
    + cbn [fst andb]. by rewrite andb_true_r.
  - by rewrite (importPublicKey_invalid_run role pubKey destDir w Hvalid).
Qed.

(** X8. Whatever its outcome, [importPublicKey] changes no file but the
    destination, leaves the generator, the standard output, the
    configuration, the system store and the mode flags as they were, calls
    no system service and shows no message box. *)
Theorem importPublicKey_touches_destination_only
    (role : UserRole) (pubKey destDir : string) (w : World) :
  let pub := publicKeyPath role destDir in
  let run := importPublicKey role pubKey destDir in
  (∀ p, p ≠ pub → files (final run w) !! p = files w !! p)
  ∧ entropy (final run w) = entropy w
  ∧ stdout (final run w) = stdout w
  ∧ same_process_state w (final run w)
  ∧ filter (λ e, is_system_step e || is_message_box e) (new_events run w) = [].
Proof.
  intros pub run. unfold same_process_state.
  destruct (isValid (loadedKey pubKey w)) eqn:Hvalid.
  - pose proof (importPublicKey_valid_run role pubKey destDir w Hvalid) as E.
    cbv zeta in E. fold pub run in E.
    destruct (files w !! pub) as [old|] eqn:Hold.
    + destruct (removable pub _).
      * erewrite new_events_of_trace; [|unfold final; rewrite E; reflexivity].
        unfold final. rewrite E. cbn [snd files set_files set_trace entropy
          stdout config systemStore silent guiApplication env].
        repeat split. intros p Hp.
        destruct (bool_decide (pub ∈ env_write_denied (env w)));
          rewrite ?lookup_insert_ne, lookup_delete_ne by done;
          by apply files_after_setPermissions_ne.
      * erewrite new_events_of_trace; [|unfold final; rewrite E; reflexivity].
        unfold final. rewrite E. cbn [snd files set_files set_trace entropy
          stdout config systemStore silent guiApplication env].
        repeat split. intros p Hp. by apply files_after_setPermissions_ne.
    + erewrite new_events_of_trace; [|unfold final; rewrite E; reflexivity].
      unfold final. rewrite E. cbn [snd files set_files set_trace entropy
        stdout config systemStore silent guiApplication env].
      repeat split. intros p Hp.
      destruct (bool_decide (pub ∈ env_write_denied (env w)));
        by rewrite ?lookup_insert_ne.
  - pose proof (importPublicKey_invalid_run role pubKey destDir w Hvalid) as E.
    fold run in E.
    erewrite new_events_of_trace; [|unfold final; rewrite E; reflexivity].
    unfold final. rewrite E. by repeat split.
Qed.

(** X9. When no file is at the destination, [importPublicKey] attempts no
    removal and no change of permissions, and a failure leaves the file
    system exactly as it was. *)
Theorem importPublicKey_without_previous_key
    (role : UserRole) (pubKey destDir : string) (w : World) :
  let pub := publicKeyPath role destDir in
  let run := importPublicKey role pubKey destDir in
  files w !! pub = None →
  filter is_removal_step (new_events run w) = []
  ∧ (result run w = false → files (final run w) = files w).
Proof.
  intros pub run Hnone.
  destruct (isValid (loadedKey pubKey w)) eqn:Hvalid.
  - pose proof (importPublicKey_valid_run role pubKey destDir w Hvalid) as E.
    cbv zeta in E. fold pub run in E. rewrite Hnone in E.
    erewrite new_events_of_trace; [|unfold final; rewrite E; reflexivity].
    unfold result, final. rewrite E. cbn [fst snd files set_files].
    split; [reflexivity|].
    by destruct (bool_decide (pub ∈ env_write_denied (env w))).
  - pose proof (importPublicKey_invalid_run role pubKey destDir w Hvalid) as E.
    fold run in E.
    erewrite new_events_of_trace; [|unfold final; rewrite E; reflexivity].
    unfold result, final. rewrite E. by split.
Qed.

(** The run of [importPublicKey] over an installed key whose permissions
    can be changed and which the system lets delete and create. *)
Lemma importPublicKey_replace_run role pubKey destDir w old :
  let pub := publicKeyPath role destDir in
  isValid (loadedKey pubKey w) = true →
  files w !! pub = Some old →
  pub ∉ env_chmod_denied (env w) →
  pub ∉ env_remove_denied (env w) →
  pub ∉ env_write_denied (env w) →
  importPublicKey role pubKey destDir w
  = (true,
     set_files (<[pub := keyFile (loadedKey pubKey w)]> (files w))
       (set_trace (trace w ++ [EvKeyLoad pubKey; EvFileExists pub;
                               EvSetPermissions pub [WriteOwner]; EvRemove pub;
                               EvKeySave PublicKey pub]) w)).
Proof.
  intros pub Hvalid Hold Hchmod Hremove Hwrite.
  rewrite (importPublicKey_valid_run role pubKey destDir w Hvalid).
  cbv zeta. fold pub. rewrite Hold.
  assert (Hrm : removable pub
                  (set_files (files_after_setPermissions pub [WriteOwner] w) w)
                = true).
  { unfold removable, files_after_setPermissions.
    cbn [files env set_files]. rewrite Hold.
    rewrite (bool_decide_false _ Hchmod), lookup_insert_eq.
    cbn [f_perms]. rewrite (bool_decide_true _ Hremove).
    rewrite (bool_decide_true (WriteOwner ∈ [WriteOwner])) by set_solver.
    by rewrite orb_true_r. }
  rewrite Hrm, (bool_decide_false _ Hwrite). cbn [negb].
  by rewrite delete_files_after_setPermissions, insert_delete_eq.
Qed.

(** X10. Setting the permissions first is what lets a read-only key be
    replaced: when the permissions of the installed key can be changed and
    the system lets the file be deleted and created again, a valid key is
    imported over it whatever the permissions of the installed file were,
    also on a system that refuses to delete a file without write
    permission. *)
Theorem importPublicKey_replaces_read_only_key
    (role : UserRole) (pubKey destDir : string) (w : World) (old : File) :
  let pub := publicKeyPath role destDir in
  let run := importPublicKey role pubKey destDir in
  isValid (loadedKey pubKey w) = true →
  files w !! pub = Some old →
  pub ∉ env_chmod_denied (env w) →
  pub ∉ env_remove_denied (env w) →
  pub ∉ env_write_denied (env w) →
  result run w = true
  ∧ files (final run w) = <[pub := keyFile (loadedKey pubKey w)]> (files w).
Proof.
  intros pub run Hvalid Hold Hchmod Hremove Hwrite.
  unfold result, final, run.
  by rewrite (importPublicKey_replace_run role pubKey destDir w old).
Qed.

(** X11. On a system that refuses to delete a file without write
    permission, an installed key that is read-only and whose permissions
    cannot be changed stops the import: [importPublicKey] returns [false],
    saves nothing and leaves every file as it was. *)
Theorem importPublicKey_locked_read_only_key
    (role : UserRole) (pubKey destDir : string) (w : World) (old : File) :
  let pub := publicKeyPath role destDir in
  let run := importPublicKey role pubKey destDir in
  isValid (loadedKey pubKey w) = true →
  files w !! pub = Some old →
  env_readonly_blocks_remove (env w) = true →
  WriteOwner ∉ f_perms old →
  pub ∈ env_chmod_denied (env w) →
  result run w = false
  ∧ files (final run w) = files w
  ∧ filter is_key_save (new_events run w) = [].
Proof.
  intros pub run Hvalid Hold Hwin Hperm Hchmod.
  pose proof (importPublicKey_valid_run role pubKey destDir w Hvalid) as E.
  cbv zeta in E. fold pub run in E. rewrite Hold in E.
  assert (Hfs : files_after_setPermissions pub [WriteOwner] w = files w).
  { unfold files_after_setPermissions.
    by rewrite Hold, (bool_decide_true _ Hchmod). }
  assert (Hrm : removable pub
                  (set_files (files_after_setPermissions pub [WriteOwner] w) w)
                = false).
  { rewrite Hfs. unfold removable. cbn [files env set_files].
    rewrite Hold, Hwin, (bool_decide_false _ Hperm). cbn.
    by rewrite andb_false_r. }
  rewrite Hrm, Hfs in E.
  erewrite new_events_of_trace; [|unfold final; rewrite E; reflexivity].
  unfold result, final. rewrite E. by repeat split.
Qed.

(** What a successful [importPublicKey] leaves. *)
Lemma importPublicKey_success_state role pubKey destDir w :
  let pub := publicKeyPath role destDir in
  let after := final (importPublicKey role pubKey destDir) w in
  result (importPublicKey role pubKey destDir) w = true →
  isValid (loadedKey pubKey w) = true
  ∧ (pub ∉ env_write_denied (env w))
  ∧ files after = <[pub := keyFile (loadedKey pubKey w)]> (files w)
  ∧ env after = env w.
Proof.
  intros pub after. unfold after, result, final.
  destruct (isValid (loadedKey pubKey w)) eqn:Hvalid.
  2: { by rewrite (importPublicKey_invalid_run role pubKey destDir w Hvalid). }
  rewrite (importPublicKey_valid_run role pubKey destDir w Hvalid).
  cbv zeta. fold pub.
  destruct (files w !! pub) as [old|].
  - destruct (removable pub _); [|discriminate].
    destruct (bool_decide (pub ∈ env_write_denied (env w))) eqn:Hden;
      cbn [fst snd negb files env set_files set_trace]; [discriminate|].
    intros _. apply bool_decide_eq_false in Hden.
    by rewrite delete_files_after_setPermissions, insert_delete_eq.
  - destruct (bool_decide (pub ∈ env_write_denied (env w))) eqn:Hden;
      cbn [fst snd negb files env set_files set_trace]; [discriminate|].
    intros _. by apply bool_decide_eq_false in Hden.
Qed.

(** X12. Importing the same file a second time changes nothing more: after
    a successful [importPublicKey] from a source other than the
    destination, a second run succeeds again and leaves the files of the
    first, provided the system lets the permissions of the destination be
    changed and the file be deleted. *)
Theorem importPublicKey_twice
    (role : UserRole) (pubKey destDir : string) (w : World) :
  let pub := publicKeyPath role destDir in
  let run := importPublicKey role pubKey destDir in
  result run w = true →
  pubKey ≠ pub →
  pub ∉ env_chmod_denied (env w) →
  pub ∉ env_remove_denied (env w) →
  result run (final run w) = true
  ∧ files (final run (final run w)) = files (final run w).
Proof.
  intros pub run Hres Hsrc Hchmod Hremove.
  destruct (importPublicKey_success_state role pubKey destDir w Hres)
    as (Hvalid & Hwrite & Hfiles & Henv).
  fold pub run in Hfiles, Henv.
  assert (Hkey : loadedKey pubKey (final run w) = loadedKey pubKey w).
  { unfold loadedKey. by rewrite Hfiles, lookup_insert_ne. }
  assert (Hold : files (final run w) !! pub = Some (keyFile (loadedKey pubKey w))).
  { by rewrite Hfiles, lookup_insert_eq. }
  pose proof (importPublicKey_replace_run role pubKey destDir (final run w)
                (keyFile (loadedKey pubKey w))) as E.
  cbv zeta in E. fold pub run in E. rewrite Hkey, Henv in E.
  specialize (E Hvalid Hold Hchmod Hremove Hwrite).
  split; [unfold result; by rewrite E|].
  change (files (final run (final run w)))
    with (files (snd (run (final run w)))).
  rewrite E. cbn [snd files set_files].
  by rewrite Hfiles, insert_insert_eq.
Qed.

(** X13. Whatever its outcome, [createKeyPair] changes no file but the two
    key files, leaves the configuration, the system store and the mode
    flags as they were, calls no system service, shows no message box and
    removes nothing; it writes to the standard output only when it
    returns [true]. *)
Theorem createKeyPair_touches_key_files_only
    (role : UserRole) (destDir : string) (w : World) :
  let priv := privateKeyPath role destDir in
  let pub := publicKeyPath role destDir in
  let run := createKeyPair role destDir in
  (∀ p, p ≠ priv → p ≠ pub → files (final run w) !! p = files w !! p)
  ∧ same_process_state w (final run w)
  ∧ (result run w = false → stdout (final run w) = stdout w)
  ∧ filter (λ e, is_system_step e || is_message_box e || is_removal_step e)
           (new_events run w) = [].
Proof.
  intros priv pub run. unfold same_process_state.
  pose proof (createKeyPair_run role destDir w) as E. cbv zeta in E.
  fold priv pub run in E.
  destruct (entropy w) as [|raw rest].
  { erewrite new_events_of_trace; [|unfold final; rewrite E; reflexivity].
    unfold result, final. rewrite E. by repeat split. }
  destruct (bool_decide (priv ∈ env_write_denied (env w))).
  { erewrite new_events_of_trace; [|unfold final; rewrite E; reflexivity].
    unfold result, final. rewrite E. by repeat split. }
  destruct (bool_decide (pub ∈ env_write_denied (env w))).
  - erewrite new_events_of_trace; [|unfold final; rewrite E; reflexivity].
    unfold result, final. rewrite E.
    cbn [fst snd files set_files set_entropy set_trace].
    repeat split. intros p Hpriv Hpub. by rewrite lookup_insert_ne.
  - erewrite new_events_of_trace; [|unfold final; rewrite E; reflexivity].
    unfold result, final. rewrite E.
    cbn [fst snd files set_files set_entropy set_trace set_stdout].
    repeat split; [|discriminate]. intros p Hpriv Hpub.
    by rewrite !lookup_insert_ne.
Qed.





(** X16. Running [createKeyPair] again replaces the pair: with key
    material for two keys and both key files writable, two runs for the
    same role and directory both return [true], each uses up one entry of
    the generator, and the files are those a single run with the second
    key material would have left. *)
Theorem createKeyPair_twice
    (role : UserRole) (destDir : string) (w : World)
    (raw1 raw2 : list Byte.byte) (rest : list (list Byte.byte)) :
  let priv := privateKeyPath role destDir in
  let pub := publicKeyPath role destDir in
  let run := createKeyPair role destDir in
  entropy w = raw1 :: raw2 :: rest →
  priv ∉ env_write_denied (env w) →
  pub ∉ env_write_denied (env w) →
  result run w = true
  ∧ result run (final run w) = true
  ∧ entropy (final run (final run w)) = rest
  ∧ files (final run (final run w))
    = <[pub := keyFile (generatedPublicKey raw2)]>
        (<[priv := keyFile (mkKey PrivateKey 1024 raw2 true)]> (files w)).
Proof.
  intros priv pub run Hent Hpriv Hpub.
  pose proof (createKeyPair_run role destDir w) as E1. cbv zeta in E1.
  fold priv pub run in E1.
  rewrite Hent, (bool_decide_false _ Hpriv), (bool_decide_false _ Hpub) in E1.
  assert (Hres : result run w = true) by (unfold result; by rewrite E1).
  assert (Hent1 : entropy (final run w) = raw2 :: rest)
    by (unfold final; by rewrite E1).
  assert (Henv1 : env (final run w) = env w) by (unfold final; by rewrite E1).
  assert (Hfiles1 : files (final run w)
                    = <[pub := keyFile (generatedPublicKey raw1)]>
                        (<[priv := keyFile (mkKey PrivateKey 1024 raw1 true)]>
                           (files w)))
    by (unfold final; by rewrite E1).
  pose proof (createKeyPair_run role destDir (final run w)) as E2.
  cbv zeta in E2. fold priv pub run in E2.
  rewrite Hent1, Henv1, (bool_decide_false _ Hpriv), (bool_decide_false _ Hpub)
    in E2.
  split; [exact Hres|]. split; [unfold result; by rewrite E2|].
  change (final run (final run w)) with (snd (run (final run w))).
  rewrite E2. cbn [snd entropy files set_stdout set_files set_entropy set_trace].
  split; [reflexivity|]. rewrite Hfiles1.
  apply map_eq. intros p.
  destruct (decide (p = pub)) as [->|Hp1]; [by rewrite !lookup_insert_eq|].
  rewrite !(lookup_insert_ne _ pub) by done.
  destruct (decide (p = priv)) as [->|Hp2]; [by rewrite !lookup_insert_eq|].
  by rewrite !lookup_insert_ne.
Qed.

End KeysFurther.

(** * The further properties at sample states *)

(** Closes a decidable goal on concrete data by evaluation. *)
Ltac by_evaluation := apply (bool_decide_unpack _); vm_compute; exact I.

Section FurtherOnSamples.
Import Reference Samples MoreSamples.


(** X1 in an interactive application. *)
Lemma messages_show_one_box_when_interactive_witness :
  guiApplication interactive = true
  ∧ silent interactive = false
  ∧ new_events (criticalMessage "Key import" "failed") interactive
    = [EvLog LogLevelCritical ["Key import"; ":"; "failed"];
       EvMessageBox BoxCritical "Key import" "failed"].
Proof.
  split; [reflexivity|]. split; [reflexivity|].
  exact (proj2 (messages_show_one_box_when_interactive
                  "Key import" "failed" interactive eq_refl eq_refl)).
Defined.

(** X5 on the autostart entry of the service section. *)
Lemma listConfiguration_slash_key_ambiguous_witness :
  "Service" ≠ ""
  ∧ listConfiguration (mkConfig [("Service" +:+ "/" +:+ "Autostart", VString "1")])
      emptyWorld
    = listConfiguration (mkConfig [("Service", VMap [("Autostart", VString "1")])])
        emptyWorld.
Proof.
  assert (H : "Service" ≠ "") by discriminate.
  split; [exact H|].
  exact (proj2 (listConfiguration_slash_key_ambiguous
                  "" "Service" "Autostart" (VString "1") emptyWorld H)).
Defined.

(** X6 on the sample configuration listed under the key [Root]. *)
Lemma listConfiguration_map_under_parent_witness :
  "Root" ≠ ""
  ∧ stdout (final (listConfiguration_map (data sampleConfiguration) "Root")
                  emptyWorld)
    = "Root/Service/Arguments=-v" +:+ nl +:+ "Root/Service/Autostart=1" +:+ nl.
Proof.
  assert (H : "Root" ≠ "") by discriminate.
  split; [exact H|].
  rewrite (listConfiguration_map_under_parent
             (data sampleConfiguration) "Root" emptyWorld H).
  reflexivity.
Defined.

(** X8 on the source file of an import over the installed key. *)
Lemma importPublicKey_touches_destination_only_witness :
  newKeyPath ≠ supporterKey
  ∧ files (final (importPublicKey RoleSupporter newKeyPath "") installed)
      !! newKeyPath
    = Some newKeyFile.
Proof.
  assert (H : newKeyPath ≠ publicKeyPath RoleSupporter "") by discriminate.
  split; [exact H|].
  destruct (importPublicKey_touches_destination_only (ext := Reference.externals)
              RoleSupporter newKeyPath "" installed) as [Hframe _].
  rewrite (Hframe newKeyPath H). reflexivity.
Defined.

(** X9 where no key is installed and none can be created. *)
Lemma importPublicKey_without_previous_key_witness :
  files emptyNoSpace !! supporterKey = None
  ∧ result (importPublicKey RoleSupporter newKeyPath "") emptyNoSpace = false
  ∧ files (final (importPublicKey RoleSupporter newKeyPath "") emptyNoSpace)
    = files emptyNoSpace.
Proof.
  assert (Hnone : files emptyNoSpace !! publicKeyPath RoleSupporter "" = None)
    by (vm_compute; reflexivity).
  assert (Hres : result (importPublicKey RoleSupporter newKeyPath "")
                   emptyNoSpace = false) by (vm_compute; reflexivity).
  split; [exact Hnone|]. split; [exact Hres|].
  exact (proj2 (importPublicKey_without_previous_key (ext := Reference.externals)
                  RoleSupporter newKeyPath "" emptyNoSpace Hnone) Hres).
Defined.

(** X10 on a read-only key that the system would not delete as it is. *)
Lemma importPublicKey_replaces_read_only_key_witness :
  removable supporterKey installedReadOnly = false
  ∧ result (importPublicKey RoleSupporter newKeyPath "") installedReadOnly = true
  ∧ files (final (importPublicKey RoleSupporter newKeyPath "") installedReadOnly)
      !! supporterKey
    = Some (keyFile (loadedKey newKeyPath installedReadOnly)).
Proof.
  split; [vm_compute; reflexivity|].
  assert (Hvalid : isValid (loadedKey newKeyPath installedReadOnly) = true)
    by (vm_compute; reflexivity).
  assert (Hold : files installedReadOnly !! publicKeyPath RoleSupporter ""
                 = Some readOnlyKeyFile) by (vm_compute; reflexivity).
  assert (Hchmod : publicKeyPath RoleSupporter ""
                   ∉ env_chmod_denied (env installedReadOnly))
    by by_evaluation.
  assert (Hremove : publicKeyPath RoleSupporter ""
                    ∉ env_remove_denied (env installedReadOnly))
    by by_evaluation.
  assert (Hwrite : publicKeyPath RoleSupporter ""
                   ∉ env_write_denied (env installedReadOnly))
    by by_evaluation.
  destruct (importPublicKey_replaces_read_only_key (ext := Reference.externals)
              RoleSupporter newKeyPath "" installedReadOnly readOnlyKeyFile
              Hvalid Hold Hchmod Hremove Hwrite) as [Hres Hfiles].
  split; [exact Hres|]. rewrite Hfiles. apply lookup_insert_eq.
Defined.

(** X11 on a read-only key whose permissions are locked. *)
Lemma importPublicKey_locked_read_only_key_witness :
  result (importPublicKey RoleSupporter newKeyPath "") installedReadOnlyLocked
  = false
  ∧ files (final (importPublicKey RoleSupporter newKeyPath "")
                 installedReadOnlyLocked)
    = files installedReadOnlyLocked.
Proof.
  assert (Hvalid : isValid (loadedKey newKeyPath installedReadOnlyLocked) = true)
    by (vm_compute; reflexivity).
  assert (Hold : files installedReadOnlyLocked !! publicKeyPath RoleSupporter ""
                 = Some readOnlyKeyFile) by (vm_compute; reflexivity).
  assert (Hperm : WriteOwner ∉ f_perms readOnlyKeyFile) by by_evaluation.
  assert (Hchmod : publicKeyPath RoleSupporter ""
                   ∈ env_chmod_denied (env installedReadOnlyLocked))
    by by_evaluation.
  destruct (importPublicKey_locked_read_only_key (ext := Reference.externals)
              RoleSupporter newKeyPath "" installedReadOnlyLocked readOnlyKeyFile
              Hvalid Hold eq_refl Hperm Hchmod) as (Hres & Hfiles & _).
  by split.
Defined.

(** X12 on the import over the installed key. *)
Lemma importPublicKey_twice_witness :
  result (importPublicKey RoleSupporter newKeyPath "") installed = true
  ∧ files (final (importPublicKey RoleSupporter newKeyPath "")
             (final (importPublicKey RoleSupporter newKeyPath "") installed))
    = files (final (importPublicKey RoleSupporter newKeyPath "") installed).
Proof.
  assert (Hres : result (importPublicKey RoleSupporter newKeyPath "") installed
                 = true) by (vm_compute; reflexivity).
  assert (Hsrc : newKeyPath ≠ publicKeyPath RoleSupporter "") by discriminate.
  assert (Hchmod : publicKeyPath RoleSupporter ""
                   ∉ env_chmod_denied (env installed)) by by_evaluation.
  assert (Hremove : publicKeyPath RoleSupporter ""
                    ∉ env_remove_denied (env installed)) by by_evaluation.
  split; [exact Hres|].
  exact (proj2 (importPublicKey_twice (ext := Reference.externals)
                  RoleSupporter newKeyPath "" installed
                  Hres Hsrc Hchmod Hremove)).
Defined.

(** X13 where the generator has nothing to give. *)
Lemma createKeyPair_touches_key_files_only_witness :
  result (createKeyPair RoleTeacher "/srv/keys") installed = false
  ∧ stdout (final (createKeyPair RoleTeacher "/srv/keys") installed)
    = stdout installed
  ∧ files (final (createKeyPair RoleTeacher "/srv/keys") installed) !! supporterKey
    = Some oldKeyFile.
Proof.
  assert (Hres : result (createKeyPair RoleTeacher "/srv/keys") installed = false)
    by (vm_compute; reflexivity).
  destruct (createKeyPair_touches_key_files_only (ext := Reference.externals)
              RoleTeacher "/srv/keys" installed) as (Hframe & _ & Hout & _).
  split; [exact Hres|]. split; [exact (Hout Hres)|].
  rewrite (Hframe supporterKey) by discriminate.
  vm_compute. reflexivity.
Defined.



(** X16 with key material for two keys. *)
Lemma createKeyPair_twice_witness :
  entropy (final (createKeyPair RoleTeacher "/srv/keys")
             (final (createKeyPair RoleTeacher "/srv/keys") seededTwice)) = []
  ∧ currentPublicKey RoleTeacher "/srv/keys"
      (final (createKeyPair RoleTeacher "/srv/keys")
         (final (createKeyPair RoleTeacher "/srv/keys") seededTwice))
    = Some (mkKey PublicKey 1024 [Byte.x55; Byte.x44] true).
Proof.
  assert (Hpriv : privateKeyPath RoleTeacher "/srv/keys"
                  ∉ env_write_denied (env seededTwice)) by by_evaluation.
  assert (Hpub : publicKeyPath RoleTeacher "/srv/keys"
                 ∉ env_write_denied (env seededTwice)) by by_evaluation.
  destruct (createKeyPair_twice (ext := Reference.externals)
              RoleTeacher "/srv/keys" seededTwice
              [Byte.x11; Byte.x22; Byte.x33] [Byte.x44; Byte.x55] []
              eq_refl Hpriv Hpub) as (_ & _ & Hent & Hfiles).
  split; [exact Hent|].
  unfold currentPublicKey. rewrite Hfiles, lookup_insert_eq. reflexivity.
Defined.

End FurtherOnSamples.
